(** * Detection map of the illicit-activity dashboard

    A shallow embedding of [create_detection_results_map]
    (illicit_detection_app.py, lines 112-207): the synthetic detection
    loop, the three-tier alert classification, the marker radius and the
    region-of-interest polygon.

    Numbers.  A Python float is represented by the rational it denotes
    ([Q]); comparisons are exact.  Where a result of the source's float
    arithmetic is kept (the centre and the corners of the boundary, the
    latitude and longitude of a point, the radius of line 176 as
    [radius_b64]) the operation is the exact one followed by [rnd], the
    rounding to the nearest binary64 value, ties to even.  The arguments
    of the draws and the thresholds of the classification are the
    decimals the source spells.  Infinities, NaN and the sign of zero are
    outside this model.

    Effects.  The function reads and writes numpy's global generator and
    reads the wall clock.  Both are threaded explicitly through a state
    monad whose computations may also raise a Python exception. *)

From Stdlib Require Import ZArith QArith Qround Qpower Qabs.
From Stdlib Require Import List String Bool Lia Lqa.
From Stdlib Require Floats.
Import ListNotations.

Local Open Scope Q_scope.

(** ** Binary64 arithmetic

    [rnd x] is the binary64 value nearest to the rational [x], ties to
    even: 53 significant bits, and multiples of 2^-1074 below 2^-1022.
    Magnitudes beyond the largest finite double, where Python gives an
    infinity, are not represented; nothing here goes near them. *)

Definition pow2 (e : Z) : Q := 2 ^ e.

(** The nearest integer, ties to even. *)
Definition rne (x : Q) : Z :=
  let f := Qfloor x in
  match Qcompare (x - inject_Z f) (1 # 2) with
  | Lt => f
  | Gt => (f + 1)%Z
  | Eq => if Z.even f then f else (f + 1)%Z
  end.

(** The exponent [e] with [2^e <= x < 2^(e+1)], for [x > 0]. *)
Definition ilog2 (x : Q) : Z :=
  let e0 := (Z.log2 (Qnum x) - Z.log2 (Zpos (Qden x)))%Z in
  if Qle_bool (pow2 e0) x then e0 else (e0 - 1)%Z.

(** The exponent of the spacing of the binary64 values around [x > 0]. *)
Definition quantum (x : Q) : Z := Z.max (ilog2 x - 52) (-1074).

Definition rnd_pos (x : Q) : Q :=
  inject_Z (rne (x / pow2 (quantum x))) * pow2 (quantum x).

Definition rnd (x : Q) : Q :=
  Qred match Qcompare x 0 with
       | Eq => 0
       | Gt => rnd_pos x
       | Lt => - rnd_pos (- x)
       end.

(** A decimal literal of the source, as the float Python reads. *)
Definition b64 (x : Q) : Q := rnd x.

(** Python's [+], [-] and [*] on floats. *)
Definition fadd (x y : Q) : Q := rnd (x + y).
Definition fsub (x y : Q) : Q := rnd (x - y).
Definition fmul (x y : Q) : Q := rnd (x * y).

(** The rational value of a primitive float, to compare [rnd] with the
    kernel's binary64 arithmetic. *)
Definition Q_of_float (f : PrimFloat.float) : option Q :=
  match FloatOps.Prim2SF f with
  | SpecFloat.S754_zero _ => Some 0
  | SpecFloat.S754_finite s m e =>
      let v := inject_Z (Zpos m) * pow2 e in
      Some (Qred (if s then - v else v))
  | _ => None
  end.

(** ** Alert classification (lines 148-157) *)

Inductive AlertLevel := HIGH | MEDIUM | LOW.

(** The [if]/[elif]/[else] chain assigns [color] and [alert_level]
    together; Python's [confidence >= 0.8] is [Qle_bool 0.8 confidence]. *)
Definition determine_alert_level (confidence : Q) : string * AlertLevel :=
  if Qle_bool 0.8 confidence then ("red"%string, HIGH)
  else if Qle_bool 0.6 confidence then ("orange"%string, MEDIUM)
  else ("yellow"%string, LOW).

Definition classifyAlertLevel (confidence : Q) : AlertLevel :=
  snd (determine_alert_level confidence).

Definition marker_color (confidence : Q) : string :=
  fst (determine_alert_level confidence).

(** ** Marker radius (line 176) *)

(** The formula, in exact arithmetic. *)
Definition radius (confidence : Q) : Q := 8 + confidence * 10.

(** The float that [8 + confidence * 10] evaluates to: the product is
    rounded, then the sum. *)
Definition radius_b64 (confidence : Q) : Q := fadd 8 (fmul confidence 10).

(** ** Python outcomes and the runtime environment *)

Inductive exn := ValueError | IndexError | OverflowError.

(** A call either raises or returns. *)
Inductive outcome (A : Type) :=
| Raised (e : exn)
| Returned (a : A).
Arguments Raised {A} e.
Arguments Returned {A} a.


(** [datetime.now()], in seconds since the epoch. *)
Definition datetime := Z.

(** The collaborators the function calls but does not define: numpy's
    global generator ([np.random.seed], [randint], [normal], [uniform],
    [choice]) and the wall clock.  A draw takes the generator state and
    either raises or returns a value with the next state.  [choice] on a
    list draws an index below its length. *)
Class Environment := {
  rng : Type;
  clock : Type;
  seed : Z -> rng;
  randint : Z -> Z -> rng -> outcome (Z * rng);
  normal : Q -> Q -> rng -> outcome (Q * rng);
  uniform : Q -> Q -> rng -> outcome (Q * rng);
  choice_index : nat -> rng -> outcome (nat * rng);
  now : clock -> datetime * clock
}.

(** ** Values passed by the caller *)

(** [detection_data] and [config] are Python dictionaries. *)
#[local] Set Warnings "-register-all".
Inductive pyval :=
| PyNone
| PyBool (b : bool)
| PyInt (z : Z)
| PyFloat (q : Q)
| PyStr (s : string)
| PyDatetime (t : datetime)
| PyList (l : list pyval)
| PyDict (d : list (string * pyval)).

(** The configuration built at lines 235-240, at clock reading [t]. *)
Definition dashboard_config (t : datetime) : pyval :=
  PyDict [ ("date_range", PyList [PyDatetime (t - 30 * 86400)%Z; PyDatetime t]);
           ("roi", PyStr "OPERATIONAL_ZONE_001");
           ("confidence_threshold", PyFloat 0.5);
           ("model", PyStr "CNN") ]%string.

(** ** Data model *)

(** The values one loop iteration computes (lines 139-157 and 166). *)
Record DetectionPoint := {
  lat : Q;
  lon : Q;
  confidence : Q;
  activity_type : string;
  color : string;
  alert_level : AlertLevel;
  detected_at : datetime
}.

(** The interpolated fields of the popup template (lines 160-172); the
    fixed HTML around them and the number formatting are left out. *)
Record Popup := {
  popup_activity_type : string;
  popup_alert_level : AlertLevel;
  popup_confidence : Q;
  popup_lat : Q;
  popup_lon : Q;
  popup_time : datetime;
  max_width : Z
}.

(** What is added to the folium map. *)
Inductive Element :=
| BaseLayer (tiles : string)  (* the tile layer [folium.Map] makes of [tiles] *)
| TileLayer (tiles attr name : string) (overlay control : bool)
| CircleMarker (location : Q * Q) (radius : Q) (popup : Popup)
    (color : string) (weight : Z) (fillColor : string) (fillOpacity : Q)
| Polygon (locations : list (Q * Q)) (color : string) (weight : Z)
    (fillOpacity : Q) (popup : string)
| LayerControl
| MiniMap (toggle_display : bool).

Record Map := {
  map_location : Q * Q;
  zoom_start : Z;
  map_tiles : string;
  children : list Element
}.

(** [folium.Map(location, zoom_start, tiles)]: the new map already holds
    the tile layer of its [tiles] argument as its first child. *)
Definition folium_Map (location : Q * Q) (zoom : Z) (tiles : string) : Map :=
  {| map_location := location; zoom_start := zoom; map_tiles := tiles;
     children := [BaseLayer tiles] |}.

(** [element.add_to(m)] and [m.add_child(element)]: the element becomes
    the last child. *)
Definition add_to (e : Element) (m : Map) : Map :=
  {| map_location := map_location m; zoom_start := zoom_start m;
     map_tiles := map_tiles m; children := children m ++ [e] |}.

Definition activity_types : list string :=
  ["Illegal Mining"; "Deforestation"; "Construction"; "Excavation"]%string.

(** Lines 174-182. *)
Definition circle_marker (p : DetectionPoint) : Element :=
  CircleMarker (lat p, lon p) (radius (confidence p))
    {| popup_activity_type := activity_type p;
       popup_alert_level := alert_level p;
       popup_confidence := confidence p;
       popup_lat := lat p;
       popup_lon := lon p;
       popup_time := detected_at p;
       max_width := 250 |}
    "black" 2 (color p) 0.7.

(** Lines 185-190. *)
Definition roi_coords (center_lat center_lon : Q) : list (Q * Q) :=
  [ (fadd center_lat (b64 0.03), fsub center_lon (b64 0.04));
    (fadd center_lat (b64 0.03), fadd center_lon (b64 0.04));
    (fsub center_lat (b64 0.03), fadd center_lon (b64 0.04));
    (fsub center_lat (b64 0.03), fsub center_lon (b64 0.04)) ].

Definition roi_polygon (center_lat center_lon : Q) : Element :=
  Polygon (roi_coords center_lat center_lon) "blue" 3 0.1
    "Operational Zone Boundary".

Definition satellite_layer : Element :=
  TileLayer "https://mt1.google.com/vt/lyrs=s&x={x}&y={y}&z={z}"
    "Google Satellite" "Satellite Imagery" false true.

(** Line 117. *)
Definition center_lat : Q := b64 40.0155.
Definition center_lon : Q := b64 (-105.2705).

(** ** The effectful program *)

Declare Scope py_scope.
Delimit Scope py_scope with py.

Section Program.
Context {E : Environment}.

(** The state a call can touch: the generator and the clock. *)
Definition world : Type := rng * clock.

Definition M (A : Type) : Type := world -> outcome (A * world).

Definition ret {A} (a : A) : M A := fun w => Returned (a, w).

Definition bind {A B} (m : M A) (f : A -> M B) : M B :=
  fun w =>
    match m w with
    | Raised e => Raised e
    | Returned (a, w') => f a w'
    end.

Definition raise {A} (e : exn) : M A := fun _ => Raised e.

Local Notation "x <- m ;; k" := (bind m (fun x => k))
  (at level 61, m at next level, right associativity) : py_scope.
Local Notation "m ;;; k" := (bind m (fun _ => k))
  (at level 61, right associativity) : py_scope.
Local Open Scope py_scope.

(** A draw changes the generator and leaves the clock alone. *)
Definition draw {A} (f : rng -> outcome (A * rng)) : M A :=
  fun w =>
    match f (fst w) with
    | Raised e => Raised e
    | Returned (a, s) => Returned (a, (s, snd w))
    end.

Definition np_random_seed (k : Z) : M unit :=
  fun w => Returned (tt, (seed k, snd w)).

Definition np_random_randint (low high : Z) : M Z := draw (randint low high).

Definition np_random_normal (loc scale : Q) : M Q := draw (normal loc scale).

Definition np_random_uniform (low high : Q) : M Q := draw (uniform low high).

Definition np_random_choice {A} (a : list A) : M A :=
  i <- draw (choice_index (List.length a)) ;;
  match nth_error a i with
  | Some x => ret x
  | None => raise IndexError
  end.

Definition datetime_now : M datetime :=
  fun w => let (t, c) := now (snd w) in Returned (t, (fst w, c)).

(** [for _ in range(n): acc = body(acc)]. *)
Fixpoint for_range {S} (n : nat) (body : S -> M S) (acc : S) : M S :=
  match n with
  | O => ret acc
  | Datatypes.S k => acc' <- body acc ;; for_range k body acc'
  end.

(** One iteration's draws and derived values (lines 138-157, 166), with
    the source's constants as parameters: in the source [center] is
    [(40.0155, -105.2705)], [confidenceRange] is [(0.3, 0.95)] and
    [jitterStdDev] is [(0.02, 0.03)]. *)
Definition detection_point (center confidenceRange jitterStdDev : Q * Q)
  : M DetectionPoint :=
  let '(center_lat, center_lon) := center in
  dlat <- np_random_normal 0 (fst jitterStdDev) ;;
  let lat := fadd center_lat dlat in
  dlon <- np_random_normal 0 (snd jitterStdDev) ;;
  let lon := fadd center_lon dlon in
  confidence <- np_random_uniform (fst confidenceRange) (snd confidenceRange) ;;
  activity_type <- np_random_choice activity_types ;;
  let '(color, alert_level) := determine_alert_level confidence in
  t <- datetime_now ;;
  ret {| lat := lat; lon := lon; confidence := confidence;
         activity_type := activity_type; color := color;
         alert_level := alert_level; detected_at := t |}.

(** The loop of lines 137-182, seen as a producer of detection points:
    [range(count)] is empty for [count <= 0]. *)
Definition collect (center confidenceRange jitterStdDev : Q * Q)
    (points : list DetectionPoint) : M (list DetectionPoint) :=
  p <- detection_point center confidenceRange jitterStdDev ;;
  ret (points ++ [p]).

Definition generate (center : Q * Q) (count : Z)
    (confidenceRange jitterStdDev : Q * Q) : M (list DetectionPoint) :=
  for_range (Z.to_nat count) (collect center confidenceRange jitterStdDev) [].

(** The same loop as the source runs it: every iteration puts its
    marker on the map. *)
Definition add_detections (center : Q * Q) (count : Z)
    (confidenceRange jitterStdDev : Q * Q) (detection_map : Map) : M Map :=
  for_range (Z.to_nat count)
    (fun detection_map =>
       p <- detection_point center confidenceRange jitterStdDev ;;
       ret (add_to (circle_marker p) detection_map))
    detection_map.

Definition create_detection_results_map (detection_data config : pyval)
  : M Map :=
  let detection_map :=
    folium_Map (center_lat, center_lon) 12 "OpenStreetMap" in
  let detection_map := add_to satellite_layer detection_map in
  np_random_seed 42 ;;;
  n_detections <- np_random_randint 5 15 ;;
  detection_map <-
    add_detections (center_lat, center_lon) n_detections
      (0.3, 0.95) (0.02, 0.03) detection_map ;;
  let detection_map :=
    add_to (roi_polygon center_lat center_lon) detection_map in
  let detection_map := add_to LayerControl detection_map in
  let detection_map := add_to (MiniMap true) detection_map in
  ret detection_map.

End Program.

(** What a reader of the map sees of a point apart from its time
    stamp. *)
Definition observable (p : DetectionPoint) : Q * Q * Q * string :=
  (lat p, lon p, confidence p, activity_type p).

(** The point computed from the values of the four draws and of the
    clock. *)
Definition point_of (center : Q * Q) (dlat dlon c : Q) (act : string)
    (t : datetime) : DetectionPoint :=
  {| lat := fadd (fst center) dlat; lon := fadd (snd center) dlon;
     confidence := c;
     activity_type := act; color := marker_color c;
     alert_level := classifyAlertLevel c; detected_at := t |}.

(** Four draws chained in the order latitude jitter, longitude jitter,
    confidence, activity index: each starts from the generator state its
    predecessor left. *)
Inductive point_draws {E : Environment} (confidenceRange jitterStdDev : Q * Q)
    (s0 : rng) (dlat dlon c : Q) (act : string) (s4 : rng) : Prop :=
| point_draws_intro (s1 s2 s3 : rng) (k : nat) :
    normal 0 (fst jitterStdDev) s0 = Returned (dlat, s1) ->
    normal 0 (snd jitterStdDev) s1 = Returned (dlon, s2) ->
    uniform (fst confidenceRange) (snd confidenceRange) s2 = Returned (c, s3) ->
    choice_index (List.length activity_types) s3 = Returned (k, s4) ->
    nth_error activity_types k = Some act ->
    point_draws confidenceRange jitterStdDev s0 dlat dlon c act s4.

(** The runs of the loop that return, one constructor per iteration
    count: the first point is drawn in the initial world and the others
    follow from the world it leaves. *)
Inductive generated {E : Environment} (center confidenceRange jitterStdDev : Q * Q)
  : nat -> world -> list DetectionPoint -> world -> Prop :=
| generated_O w : generated center confidenceRange jitterStdDev O w [] w
| generated_S n w p w1 points w2 :
    detection_point center confidenceRange jitterStdDev w = Returned (p, w1) ->
    generated center confidenceRange jitterStdDev n w1 points w2 ->
    generated center confidenceRange jitterStdDev (S n) w (p :: points) w2.

(** The markers of a sequence of points, put on a map one after the
    other. *)
Definition add_markers (points : list DetectionPoint) (m : Map) : Map :=
  fold_left (fun m p => add_to (circle_marker p) m) points m.

(** The map returned for a given sequence of points: the base map with
    the tile layer folium creates for it, the satellite layer, one
    marker per point in order, the boundary, the layer control and the
    minimap. *)
Definition map_of (points : list DetectionPoint) : Map :=
  {| map_location := (center_lat, center_lon);
     zoom_start := 12;
     map_tiles := "OpenStreetMap";
     children :=
       BaseLayer "OpenStreetMap" :: satellite_layer ::
       map circle_marker points ++
       [roi_polygon center_lat center_lon; LayerControl; MiniMap true] |}.


(** Following the specification's words (section 4): the tier a
    confidence belongs to, by the thresholds 0.8 and 0.6. *)
Definition level_matches (confidence : Q) (level : AlertLevel) : Prop :=
  match level with
  | HIGH => 0.8 <= confidence
  | MEDIUM => 0.6 <= confidence /\ confidence < 0.8
  | LOW => confidence < 0.6
  end.

(** A marker whose popup shows the tier of the confidence it shows. *)
Definition marker_level_matches (e : Element) : Prop :=
  match e with
  | CircleMarker _ _ pop _ _ _ _ =>
      level_matches (popup_confidence pop) (popup_alert_level pop)
  | _ => True
  end.




(** Two outcomes agree up to [R]: both raise the same exception, or both
    return and [R] relates the values and final worlds. *)
Definition outcome_rel {E : Environment} {A B}
    (R : A -> world -> B -> world -> Prop)
    (r1 : outcome (A * world)) (r2 : outcome (B * world)) : Prop :=
  match r1, r2 with
  | Raised e1, Raised e2 => e1 = e2
  | Returned (a, w1), Returned (b, w2) => R a w1 b w2
  | _, _ => False
  end.

(** ** Observations on maps and clocks *)

Definition is_marker (e : Element) : bool :=
  match e with CircleMarker _ _ _ _ _ _ _ => true | _ => false end.

(** The fixed styling of a marker (lines 174-182): black border of weight
    2, fill opacity 0.7, a popup at most 250 wide that shows the marker's
    own location, and the fill colour of the level the popup shows. *)
Definition marker_styled (e : Element) : Prop :=
  match e with
  | CircleMarker loc _ pop col wt fill op =>
      col = "black"%string /\ wt = 2%Z /\ op = 0.7 /\
      max_width pop = 250%Z /\
      loc = (popup_lat pop, popup_lon pop) /\
      fill = match popup_alert_level pop with
             | HIGH => "red"
             | MEDIUM => "orange"
             | LOW => "yellow"
             end%string
  | _ => True
  end.

(** A map element with the detection time of its popup blanked. *)
Definition untimed (e : Element) : Element :=
  match e with
  | CircleMarker loc r pop col wt fill op =>
      CircleMarker loc r
        {| popup_activity_type := popup_activity_type pop;
           popup_alert_level := popup_alert_level pop;
           popup_confidence := popup_confidence pop;
           popup_lat := popup_lat pop;
           popup_lon := popup_lon pop;
           popup_time := 0%Z;
           max_width := max_width pop |}
        col wt fill op
  | _ => e
  end.

(** [n] successive readings of the clock, and the clock they leave. *)
Fixpoint readings {E : Environment} (n : nat) (clk : clock)
  : list datetime * clock :=
  match n with
  | O => ([], clk)
  | S k =>
      let (t, clk1) := now clk in
      let (ts, clk2) := readings k clk1 in
      (t :: ts, clk2)
  end.

(** A position lies within the corners of a boundary when, in latitude
    and in longitude, some corner is below it and some corner above. *)
Definition within_corners (corners : list (Q * Q)) (la lo : Q) : Prop :=
  (exists c, In c corners /\ fst c <= la) /\
  (exists c, In c corners /\ la <= fst c) /\
  (exists c, In c corners /\ snd c <= lo) /\
  (exists c, In c corners /\ lo <= snd c).

(** ** What the program expects of numpy

    The behaviour of the draws that the theorems naming this contract
    assume, for arguments that have a rational value of ordinary size:
    [randint(low, high)] with [low < high] returns an integer in
    [[low, high)]; [normal(loc, scale)] returns for [scale >= 0] and
    raises [ValueError] for [scale < 0]; [uniform(low, high)] returns,
    inside [[low, high)] when [low < high]; [choice] on a non-empty list
    draws a valid index.  Numpy's reactions to a negative zero or to
    bounds whose difference overflows are not part of it. *)
Record NumpyContract {E : Environment} : Prop := {
  randint_returns : forall low high s, (low < high)%Z ->
    exists v s', randint low high s = Returned (v, s') /\ (low <= v < high)%Z;
  normal_returns : forall loc scale s, 0 <= scale ->
    exists v s', normal loc scale s = Returned (v, s');
  normal_rejects : forall loc scale s, scale < 0 ->
    normal loc scale s = Raised ValueError;
  uniform_returns : forall low high s,
    exists v s', uniform low high s = Returned (v, s');
  uniform_range : forall low high s v s', low < high ->
    uniform low high s = Returned (v, s') -> low <= v /\ v < high;
  choice_returns : forall n s, (0 < n)%nat ->
    exists i s', choice_index n s = Returned (i, s') /\ (i < n)%nat
}.
Arguments NumpyContract E : clear implicits.



(** ** A small concrete environment

    A linear congruential generator with numpy's argument checks
    ([randint] needs [low < high], [normal] a non-negative [scale],
    [choice] a non-empty list) and a clock that advances one second per
    reading.  It serves to run the program on concrete inputs. *)
Module Lcg.

Definition next (s : Z) : Z := ((s * 1103515245 + 12345) mod 2147483648)%Z.

(** The low bits of such a generator cycle quickly; samples use the
    high ones. *)
Definition high_bits (s : Z) : Z := (s / 65536)%Z.

(** A rational in [0, 1). *)
Definition unit_sample (s : Z) : Q := (high_bits s mod 1000)%Z # 1000.

(** A rational in [-2, 2]. *)
Definition bell_sample (s : Z) : Q := ((high_bits s mod 2001) - 1000)%Z # 500.

Definition lcg_randint (low high : Z) (s : Z) : outcome (Z * Z) :=
  if (low <? high)%Z
  then Returned ((low + high_bits s mod (high - low))%Z, next s)
  else Raised ValueError.

Definition lcg_normal (loc scale : Q) (s : Z) : outcome (Q * Z) :=
  if Qle_bool 0 scale
  then Returned (loc + scale * bell_sample s, next s)
  else Raised ValueError.

Definition lcg_uniform (low high : Q) (s : Z) : outcome (Q * Z) :=
  Returned (low + (high - low) * unit_sample s, next s).

Definition lcg_choice_index (n : nat) (s : Z) : outcome (nat * Z) :=
  match n with
  | O => Raised ValueError
  | _ => Returned (Z.to_nat (high_bits s mod Z.of_nat n), next s)
  end.

Definition env : Environment :=
  {| rng := Z;
     clock := Z;
     seed := fun k => (k mod 2147483648)%Z;
     randint := lcg_randint;
     normal := lcg_normal;
     uniform := lcg_uniform;
     choice_index := lcg_choice_index;
     now := fun t => (t, (t + 1)%Z) |}.

End Lcg.

(** A run of the loop in that environment, with the source's constants
    and ten points. *)
Definition sample_world : @world Lcg.env := (42, 1000)%Z.

Definition sample_run : outcome (list DetectionPoint * @world Lcg.env) :=
  Eval vm_compute in
    generate (E := Lcg.env) (40.0155, -105.2705) 10 (0.3, 0.95) (0.02, 0.03)
      sample_world.

Definition sample_points : list DetectionPoint :=
  Eval vm_compute in
    match sample_run with Returned (points, _) => points | Raised _ => [] end.

Definition sample_final : @world Lcg.env :=
  Eval vm_compute in
    match sample_run with Returned (_, w) => w | Raised _ => sample_world end.

(** The call of line 243 in that environment: an empty [detection_data]
    and the dashboard configuration. *)
Definition sample_map_run : outcome (Map * @world Lcg.env) :=
  Eval vm_compute in
    create_detection_results_map (E := Lcg.env) (PyDict [])
      (dashboard_config 1000%Z) sample_world.

Definition sample_map : Map :=
  Eval vm_compute in
    match sample_map_run with
    | Returned (m, _) => m
    | Raised _ => folium_Map (0, 0) 0 ""
    end.

Definition sample_map_final : @world Lcg.env :=
  Eval vm_compute in
    match sample_map_run with
    | Returned (_, w) => w
    | Raised _ => sample_world
    end.

(** A generator state whose first jitter exceeds 0.03 degrees. *)
Definition far_world : @world Lcg.env := (117964800, 1000)%Z.

Definition far_point_run : outcome (DetectionPoint * @world Lcg.env) :=
  Eval vm_compute in
    detection_point (E := Lcg.env) (40.0155, -105.2705) (0.3, 0.95)
      (0.02, 0.03) far_world.

Definition far_point : DetectionPoint :=
  Eval vm_compute in
    match far_point_run with
    | Returned (p, _) => p
    | Raised _ => point_of (0, 0) 0 0 0 "" 0%Z
    end.

Definition far_final : @world Lcg.env :=
  Eval vm_compute in
    match far_point_run with
    | Returned (_, w) => w
    | Raised _ => far_world
    end.


(** ** Arithmetic helpers *)

(** Python's comparisons are boolean; [qorder] turns the tests in the
    context into order facts and closes linear goals. *)
Ltac qorder :=
  repeat match goal with
         | H : Qle_bool _ _ = true |- _ => apply Qle_bool_iff in H
         | H : Qle_bool _ _ = false |- _ =>
             apply not_true_iff_false in H; rewrite Qle_bool_iff in H
         | H : _ /\ _ |- _ => destruct H
         end;
  lra.

Lemma Qle_bool_false (x y : Q) : y < x -> Qle_bool x y = false.
Proof.
  intros H. apply not_true_iff_false. rewrite Qle_bool_iff.
  apply Qlt_not_le. exact H.
Qed.

Lemma Qle_bool_true (x y : Q) : x <= y -> Qle_bool x y = true.
Proof. apply Qle_bool_iff. Qed.

(** ** Classification lemmas *)

Lemma classify_high (c : Q) : 0.8 <= c -> classifyAlertLevel c = HIGH.
Proof.
  intros H. unfold classifyAlertLevel, determine_alert_level.
  rewrite (Qle_bool_true _ _ H). reflexivity.
Qed.

Lemma classify_medium (c : Q) :
  0.6 <= c -> c < 0.8 -> classifyAlertLevel c = MEDIUM.
Proof.
  intros H6 H8. unfold classifyAlertLevel, determine_alert_level.
  rewrite (Qle_bool_false _ _ H8), (Qle_bool_true _ _ H6). reflexivity.
Qed.

Lemma classify_low (c : Q) : c < 0.6 -> classifyAlertLevel c = LOW.
Proof.
  intros H6. unfold classifyAlertLevel, determine_alert_level.
  assert (H8 : c < 0.8) by qorder.
  rewrite (Qle_bool_false _ _ H8), (Qle_bool_false _ _ H6). reflexivity.
Qed.

(** The three tiers, read backwards: the level tells the interval. *)
Lemma classify_inv (c : Q) :
  match classifyAlertLevel c with
  | HIGH => 0.8 <= c
  | MEDIUM => 0.6 <= c /\ c < 0.8
  | LOW => c < 0.6
  end.
Proof.
  unfold classifyAlertLevel, determine_alert_level.
  destruct (Qle_bool 0.8 c) eqn:E8; simpl.
  - now apply Qle_bool_iff.
  - destruct (Qle_bool 0.6 c) eqn:E6; simpl.
    + split; [now apply Qle_bool_iff|].
      apply Qnot_le_lt. intros H. apply Qle_bool_iff in H. congruence.
    + apply Qnot_le_lt. intros H. apply Qle_bool_iff in H. congruence.
Qed.

(** The colour follows the level (HIGH red, MEDIUM orange, LOW yellow). *)
Lemma marker_color_level (c : Q) :
  marker_color c =
  match classifyAlertLevel c with
  | HIGH => "red" | MEDIUM => "orange" | LOW => "yellow"
  end%string.
Proof.
  unfold marker_color, classifyAlertLevel, determine_alert_level.
  destruct (Qle_bool 0.8 c); [reflexivity|].
  destruct (Qle_bool 0.6 c); reflexivity.
Qed.

(** The tests compare values, not representations: equal rationals get
    the same level. *)
Lemma classify_Qeq (c1 c2 : Q) :
  c1 == c2 -> classifyAlertLevel c1 = classifyAlertLevel c2.
Proof.
  intros E. unfold classifyAlertLevel, determine_alert_level.
  assert (H : forall t, Qle_bool t c1 = Qle_bool t c2).
  { intros t. destruct (Qle_bool t c2) eqn:E2.
    - apply Qle_bool_iff. rewrite E. now apply Qle_bool_iff.
    - apply not_true_iff_false. rewrite Qle_bool_iff, E, <- Qle_bool_iff.
      congruence. }
  rewrite !H. reflexivity.
Qed.

(** ** The monad *)

Section MonadFacts.
Context {E : Environment}.

Lemma bind_returned {A B} (m : M A) (f : A -> M B) w a w' :
  m w = Returned (a, w') -> bind m f w = f a w'.
Proof. intros H. unfold bind. rewrite H. reflexivity. Qed.

Lemma bind_raised {A B} (m : M A) (f : A -> M B) w e :
  m w = Raised e -> bind m f w = Raised e.
Proof. intros H. unfold bind. rewrite H. reflexivity. Qed.

Lemma bind_inv_returned {A B} (m : M A) (f : A -> M B) w b w2 :
  bind m f w = Returned (b, w2) ->
  exists a w1, m w = Returned (a, w1) /\ f a w1 = Returned (b, w2).
Proof.
  unfold bind. destruct (m w) as [e | [a w1]]; [discriminate|].
  intros H. exists a, w1. split; [reflexivity | exact H].
Qed.


Lemma bind_ret_l {A B} (a : A) (f : A -> M B) w : bind (ret a) f w = f a w.
Proof. reflexivity. Qed.

Lemma bind_assoc {A B C} (m : M A) (f : A -> M B) (g : B -> M C) w :
  bind (bind m f) g w = bind m (fun a => bind (f a) g) w.
Proof. unfold bind. destruct (m w) as [e | [a w1]]; reflexivity. Qed.

Lemma draw_returned {A} (f : rng -> outcome (A * rng)) s clk a s' :
  f s = Returned (a, s') -> draw f (s, clk) = Returned (a, (s', clk)).
Proof. intros H. unfold draw. simpl. rewrite H. reflexivity. Qed.

Lemma draw_raised {A} (f : rng -> outcome (A * rng)) s clk e :
  f s = Raised e -> draw f (s, clk) = Raised e.
Proof. intros H. unfold draw. simpl. rewrite H. reflexivity. Qed.

Lemma draw_inv_returned {A} (f : rng -> outcome (A * rng)) w a w' :
  draw f w = Returned (a, w') ->
  f (fst w) = Returned (a, fst w') /\ snd w' = snd w.
Proof.
  unfold draw. destruct (f (fst w)) as [e | [a' s']]; [discriminate|].
  intros H. injection H as -> <-. split; reflexivity.
Qed.


(** A loop preserves whatever relation its body preserves. *)
Lemma for_range_sim {S1 S2} (R : S1 -> world -> S2 -> world -> Prop)
    (body1 : S1 -> M S1) (body2 : S2 -> M S2) :
  (forall a1 w1 a2 w2, R a1 w1 a2 w2 ->
     outcome_rel R (body1 a1 w1) (body2 a2 w2)) ->
  forall n a1 w1 a2 w2, R a1 w1 a2 w2 ->
    outcome_rel R (for_range n body1 a1 w1) (for_range n body2 a2 w2).
Proof.
  intros Hbody n. induction n as [|n IH]; intros a1 w1 a2 w2 HR.
  - simpl. exact HR.
  - simpl. unfold bind.
    specialize (Hbody a1 w1 a2 w2 HR). unfold outcome_rel in Hbody.
    destruct (body1 a1 w1) as [e1 | [b1 v1]],
             (body2 a2 w2) as [e2 | [b2 v2]]; try contradiction.
    + exact Hbody.
    + apply IH. exact Hbody.
Qed.

End MonadFacts.

(** ** One detection point *)

Section PointFacts.
Context {E : Environment}.
Variables center confidenceRange jitterStdDev : Q * Q.

Lemma detection_point_returned s0 clk dlat dlon c act s4 t clk' :
  point_draws confidenceRange jitterStdDev s0 dlat dlon c act s4 ->
  now clk = (t, clk') ->
  detection_point center confidenceRange jitterStdDev (s0, clk) =
  Returned (point_of center dlat dlon c act t, (s4, clk')).
Proof.
  intros [s1 s2 s3 k H1 H2 H3 H4 Hk] Hnow.
  unfold detection_point. destruct center as [center_lat center_lon].
  unfold np_random_normal, np_random_uniform, np_random_choice.
  rewrite (bind_returned _ _ _ _ _ (draw_returned _ _ clk _ _ H1)).
  rewrite (bind_returned _ _ _ _ _ (draw_returned _ _ clk _ _ H2)).
  rewrite (bind_returned _ _ _ _ _ (draw_returned _ _ clk _ _ H3)).
  rewrite bind_assoc.
  rewrite (bind_returned _ _ _ _ _ (draw_returned _ _ clk _ _ H4)).
  rewrite Hk, bind_ret_l.
  unfold point_of, marker_color, classifyAlertLevel.
  destruct (determine_alert_level c) as [col lvl].
  unfold bind, datetime_now. simpl. rewrite Hnow. reflexivity.
Qed.

Lemma detection_point_inv w p w' :
  detection_point center confidenceRange jitterStdDev w = Returned (p, w') ->
  exists dlat dlon c act t,
    point_draws confidenceRange jitterStdDev (fst w) dlat dlon c act (fst w') /\
    now (snd w) = (t, snd w') /\
    p = point_of center dlat dlon c act t.
Proof.
  unfold detection_point. destruct center as [center_lat center_lon].
  unfold np_random_normal, np_random_uniform, np_random_choice.
  intros H.
  apply bind_inv_returned in H as (dlat & w1 & H1 & H).
  apply bind_inv_returned in H as (dlon & w2 & H2 & H).
  apply bind_inv_returned in H as (c & w3 & H3 & H).
  apply bind_inv_returned in H as (act & w4 & H4 & H).
  apply bind_inv_returned in H4 as (k & w4' & H4 & Hk).
  apply draw_inv_returned in H1 as [H1 C1], H2 as [H2 C2],
    H3 as [H3 C3], H4 as [H4 C4].
  destruct (nth_error activity_types k) as [act'|] eqn:Hnth;
    [|discriminate Hk].
  injection Hk as -> ->.
  destruct (determine_alert_level c) as [col lvl] eqn:Hdet.
  unfold bind, datetime_now, ret in H.
  destruct (now (snd w4)) as [t clk'] eqn:Hnow.
  injection H as <- <-. simpl.
  exists dlat, dlon, c, act, t. split; [|split].
  - econstructor; eassumption.
  - rewrite <- C1, <- C2, <- C3, <- C4. exact Hnow.
  - unfold point_of, marker_color, classifyAlertLevel.
    rewrite Hdet. reflexivity.
Qed.


End PointFacts.

(** ** The generation loop *)

Section LoopFacts.
Context {E : Environment}.
Variables center confidenceRange jitterStdDev : Q * Q.

#[local] Abbreviation point :=
  (detection_point center confidenceRange jitterStdDev).
#[local] Abbreviation collect :=
  (collect center confidenceRange jitterStdDev).

Lemma generate_unfold count :
  generate center count confidenceRange jitterStdDev =
  for_range (Z.to_nat count) collect [].
Proof. reflexivity. Qed.

Lemma for_range_add {S} (body : S -> M S) n m acc w :
  for_range (n + m) body acc w =
  bind (for_range n body acc) (for_range m body) w.
Proof.
  revert acc w. induction n as [|n IH]; intros acc w; simpl.
  - reflexivity.
  - unfold bind.
    destruct (body acc w) as [e | [acc' w']]; [reflexivity|].
    rewrite IH. reflexivity.
Qed.

(** Starting from a non-empty accumulator only prefixes the result. *)
Lemma collect_from acc n w :
  for_range n collect acc w =
  bind (for_range n collect []) (fun points => ret (acc ++ points)) w.
Proof.
  pose (R := fun (a1 : list DetectionPoint) (w1 : world)
                 (a2 : list DetectionPoint) (w2 : world) =>
               w1 = w2 /\ a1 = acc ++ a2).
  assert (H : outcome_rel R (for_range n collect acc w)
                            (for_range n collect [] w)).
  { apply for_range_sim.
    - intros a1 w1 a2 w2 [-> ->]. unfold collect, bind.
      destruct (point w2) as [e | [p w']]; simpl; [reflexivity|].
      split; [reflexivity|]. now rewrite app_assoc.
    - split; [reflexivity|]. now rewrite app_nil_r. }
  unfold bind, outcome_rel in *.
  destruct (for_range n collect acc w) as [e1 | [a1 w1]],
           (for_range n collect [] w) as [e2 | [a2 w2]];
    try contradiction.
  - now subst.
  - destruct H as [-> ->]. reflexivity.
Qed.

Lemma collect_S n w :
  for_range (S n) collect [] w =
  bind point (fun p =>
    bind (for_range n collect []) (fun points => ret (p :: points))) w.
Proof.
  simpl. unfold collect at 1. unfold bind at 1 2 3.
  destruct (point w) as [e | [p w1]]; [reflexivity|].
  simpl. apply collect_from.
Qed.

Lemma collect_generated n w points w' :
  for_range n collect [] w = Returned (points, w') <->
  generated center confidenceRange jitterStdDev n w points w'.
Proof.
  split.
  - revert w points w'. induction n as [|n IH]; intros w points w' H.
    + simpl in H. injection H as <- <-. constructor.
    + rewrite collect_S in H.
      apply bind_inv_returned in H as (p & w1 & Hp & H).
      apply bind_inv_returned in H as (rest & w2 & Hrest & H).
      injection H as <- <-.
      econstructor; [exact Hp | apply IH; exact Hrest].
  - intros H. induction H as [w | n w p w1 points w2 Hp _ IH].
    + reflexivity.
    + rewrite collect_S. fold point in Hp.
      rewrite (bind_returned _ _ _ _ _ Hp), (bind_returned _ _ _ _ _ IH).
      reflexivity.
Qed.


Lemma generated_length n w points w' :
  generated center confidenceRange jitterStdDev n w points w' ->
  List.length points = n.
Proof. induction 1; simpl; congruence. Qed.

(** Whatever holds of every point the body returns holds of every
    generated point. *)
Lemma generated_Forall (P : DetectionPoint -> Prop) :
  (forall w p w', point w = Returned (p, w') -> P p) ->
  forall n w points w',
    generated center confidenceRange jitterStdDev n w points w' ->
    Forall P points.
Proof.
  intros HP n w points w' H.
  induction H as [w | n w p w1 points w2 Hp _ IH]; constructor.
  - eapply HP. exact Hp.
  - exact IH.
Qed.

(** A body that always returns makes the loop return. *)
Lemma generated_total :
  (forall w, exists p w', point w = Returned (p, w')) ->
  forall n w, exists points w',
    generated center confidenceRange jitterStdDev n w points w'.
Proof.
  intros Hpoint n. induction n as [|n IH]; intros w.
  - exists [], w. constructor.
  - destruct (Hpoint w) as (p & w1 & Hp).
    destruct (IH w1) as (points & w2 & Hgen).
    exists (p :: points), w2. econstructor; eassumption.
Qed.

(** Running [n] iterations and then [m] more is running [n + m]: the
    points come out in the order the iterations produce them. *)
Lemma generated_app n m w points1 w1 points2 w2 :
  generated center confidenceRange jitterStdDev n w points1 w1 ->
  generated center confidenceRange jitterStdDev m w1 points2 w2 ->
  generated center confidenceRange jitterStdDev (n + m) w (points1 ++ points2) w2.
Proof.
  intros H1 H2. induction H1 as [w | n w p w' points w1 Hp _ IH]; simpl.
  - exact H2.
  - econstructor; [exact Hp | apply IH; exact H2].
Qed.

Lemma generated_firstn n w points w' k :
  generated center confidenceRange jitterStdDev n w points w' ->
  (k <= n)%nat ->
  exists w1,
    generated center confidenceRange jitterStdDev k w (firstn k points) w1 /\
    generated center confidenceRange jitterStdDev (n - k) w1 (skipn k points) w'.
Proof.
  intros H. revert k.
  induction H as [w | n w p w1 points w2 Hp Hgen IH]; intros k Hk.
  - assert (k = O) by lia. subst k. exists w. split; constructor.
  - destruct k as [|k].
    + exists w. split; [constructor|]. simpl. econstructor; eassumption.
    + destruct (IH k) as (w3 & Hfirst & Hrest); [lia|].
      exists w3. simpl. split; [econstructor; eassumption | exact Hrest].
Qed.

Lemma generated_fun n w points1 w1 points2 w2 :
  generated center confidenceRange jitterStdDev n w points1 w1 ->
  generated center confidenceRange jitterStdDev n w points2 w2 ->
  points1 = points2 /\ w1 = w2.
Proof.
  intros H1 H2. apply collect_generated in H1, H2.
  rewrite H1 in H2. injection H2 as -> ->. split; reflexivity.
Qed.

End LoopFacts.

(** ** The loop on the map *)

Section MapFacts.
Context {E : Environment}.

Lemma add_markers_children points m :
  children (add_markers points m) = children m ++ map circle_marker points.
Proof.
  unfold add_markers. revert m.
  induction points as [|p points IH]; intros m; simpl.
  - now rewrite app_nil_r.
  - rewrite IH. simpl. now rewrite <- app_assoc.
Qed.

Lemma add_markers_header points m :
  map_location (add_markers points m) = map_location m /\
  zoom_start (add_markers points m) = zoom_start m /\
  map_tiles (add_markers points m) = map_tiles m.
Proof.
  unfold add_markers. revert m.
  induction points as [|p points IH]; intros m; simpl.
  - repeat split.
  - destruct (IH (add_to (circle_marker p) m)) as (-> & -> & ->).
    repeat split.
Qed.

(** The loop on the map is the generation loop followed by the drawing
    of its points, in the same order. *)
Lemma add_detections_generate center count confidenceRange jitterStdDev m w :
  add_detections center count confidenceRange jitterStdDev m w =
  bind (generate center count confidenceRange jitterStdDev)
       (fun points => ret (add_markers points m)) w.
Proof.
  unfold add_detections, generate.
  set (n := Z.to_nat count). clearbody n.
  pose (R := fun (m1 : Map) (w1 : world)
                 (points : list DetectionPoint) (w2 : world) =>
               w1 = w2 /\ m1 = add_markers points m).
  match goal with
  | |- for_range n ?b1 m w = bind (for_range n ?b2 []) _ w =>
      assert (H : outcome_rel R (for_range n b1 m w) (for_range n b2 [] w))
  end.
  { apply for_range_sim.
    - intros m1 w1 points w2 [-> ->]. unfold collect, bind.
      destruct (detection_point center confidenceRange jitterStdDev w2)
        as [e | [p w']]; simpl; [reflexivity|].
      split; [reflexivity|].
      unfold add_markers. rewrite fold_left_app. reflexivity.
    - split; reflexivity. }
  unfold bind, outcome_rel in *.
  match goal with
  | H : match ?r1 with _ => _ end |- _ =>
      destruct r1 as [e1 | [m1 w1]]
  end;
  match goal with
  | H : match ?r2 with _ => _ end |- _ =>
      destruct r2 as [e2 | [points w2]]
  end; try contradiction.
  - now subst.
  - destruct H as [-> ->]. reflexivity.
Qed.

(** A point's draws do not depend on the clock, and its time stamp is all
    the clock decides. *)
Lemma detection_point_clock center confidenceRange jitterStdDev w1 w2 :
  fst w1 = fst w2 ->
  outcome_rel
    (fun p1 w1' p2 w2' =>
       observable p1 = observable p2 /\ fst w1' = fst w2')
    (detection_point center confidenceRange jitterStdDev w1)
    (detection_point center confidenceRange jitterStdDev w2).
Proof.
  destruct w1 as [s clk1], w2 as [s' clk2]. simpl. intros <-.
  unfold detection_point. destruct center as [center_lat center_lon].
  unfold np_random_normal, np_random_uniform, np_random_choice.
  unfold outcome_rel, bind, draw, datetime_now, ret, raise. simpl.
  destruct (normal 0 (fst jitterStdDev) s) as [e | [dlat s1]];
    simpl; [reflexivity|].
  destruct (normal 0 (snd jitterStdDev) s1) as [e | [dlon s2]];
    simpl; [reflexivity|].
  destruct (uniform (fst confidenceRange) (snd confidenceRange) s2)
    as [e | [c s3]]; simpl; [reflexivity|].
  destruct (choice_index _ s3) as [e | [k s4]]; simpl; [reflexivity|].
  destruct (nth_error activity_types k) as [act|]; simpl; [|reflexivity].
  destruct (determine_alert_level c) as [col lvl]. simpl.
  destruct (now clk1) as [t1 c1], (now clk2) as [t2 c2]. simpl.
  split; reflexivity.
Qed.

Lemma generate_clock center count confidenceRange jitterStdDev w1 w2 :
  fst w1 = fst w2 ->
  outcome_rel
    (fun points1 w1' points2 w2' =>
       map observable points1 = map observable points2 /\ fst w1' = fst w2')
    (generate center count confidenceRange jitterStdDev w1)
    (generate center count confidenceRange jitterStdDev w2).
Proof.
  intros Hw. unfold generate. apply for_range_sim.
  - intros a1 v1 a2 v2 [Ha Hv].
    pose proof (detection_point_clock center confidenceRange jitterStdDev
                  v1 v2 Hv) as H.
    unfold collect, bind, outcome_rel in *.
    destruct (detection_point center confidenceRange jitterStdDev v1)
      as [e1 | [p1 v1']],
      (detection_point center confidenceRange jitterStdDev v2)
      as [e2 | [p2 v2']]; try contradiction.
    + exact H.
    + destruct H as [Hp Hv']. simpl. split; [|exact Hv'].
      rewrite !map_app. simpl. now rewrite Ha, Hp.
  - split; [reflexivity | exact Hw].
Qed.

End MapFacts.

(** ** Consequences of numpy's contract *)

Section ContractFacts.
Context {E : Environment}.
Hypothesis numpy : NumpyContract E.
Variables center confidenceRange jitterStdDev : Q * Q.

Lemma detection_point_returns :
  0 <= fst jitterStdDev -> 0 <= snd jitterStdDev ->
  forall w, exists p w',
    detection_point center confidenceRange jitterStdDev w = Returned (p, w').
Proof.
  intros Hlat Hlon [s0 clk].
  destruct (normal_returns numpy 0 _ s0 Hlat) as (dlat & s1 & H1).
  destruct (normal_returns numpy 0 _ s1 Hlon) as (dlon & s2 & H2).
  destruct (uniform_returns numpy (fst confidenceRange)
              (snd confidenceRange) s2) as (c & s3 & H3).
  destruct (choice_returns numpy (List.length activity_types) s3)
    as (k & s4 & H4 & Hk); [simpl; lia|].
  destruct (nth_error activity_types k) as [act|] eqn:Hnth;
    [|apply nth_error_None in Hnth; lia].
  destruct (now clk) as [t clk'] eqn:Hnow.
  eexists _, _. eapply detection_point_returned; [|exact Hnow].
  econstructor; eassumption.
Qed.

Lemma detection_point_rejects :
  fst jitterStdDev < 0 \/ snd jitterStdDev < 0 ->
  forall w,
    detection_point center confidenceRange jitterStdDev w = Raised ValueError.
Proof.
  intros Hneg [s0 clk].
  unfold detection_point. destruct center as [center_lat center_lon].
  unfold np_random_normal.
  destruct (Qlt_le_dec (fst jitterStdDev) 0) as [Hlat | Hlat].
  - apply bind_raised, draw_raised, (normal_rejects numpy), Hlat.
  - destruct Hneg as [Hneg | Hlon]; [exfalso; lra|].
    destruct (normal_returns numpy 0 _ s0 Hlat) as (dlat & s1 & H1).
    rewrite (bind_returned _ _ _ _ _ (draw_returned _ _ clk _ _ H1)).
    apply bind_raised, draw_raised, (normal_rejects numpy), Hlon.
Qed.

End ContractFacts.

(** ** The concrete environment meets the contract *)

Module LcgFacts.
Import Lcg.

Lemma unit_sample_range s : 0 <= unit_sample s /\ unit_sample s < 1.
Proof.
  unfold unit_sample, Qle, Qlt. simpl.
  pose proof (Z.mod_pos_bound (high_bits s) 1000). lia.
Qed.

Lemma lcg_uniform_range low high s v s' :
  low < high -> lcg_uniform low high s = Returned (v, s') ->
  low <= v /\ v < high.
Proof.
  unfold lcg_uniform. intros Hlt H. injection H as <- _.
  destruct (unit_sample_range s) as [H0 H1].
  set (u := unit_sample s) in *. clearbody u. split; nra.
Qed.

Lemma contract : NumpyContract env.
Proof.
  constructor; simpl.
  - intros low high s Hlt. unfold lcg_randint.
    destruct (Z.ltb_spec low high) as [_ | Hge]; [|lia].
    eexists _, _. split; [reflexivity|].
    pose proof (Z.mod_pos_bound (high_bits s) (high - low)). lia.
  - intros loc scale s Hscale. unfold lcg_normal.
    rewrite (Qle_bool_true _ _ Hscale). eexists _, _. reflexivity.
  - intros loc scale s Hscale. unfold lcg_normal.
    rewrite (Qle_bool_false _ _ Hscale). reflexivity.
  - intros low high s. eexists _, _. reflexivity.
  - exact lcg_uniform_range.
  - intros n s Hn. unfold lcg_choice_index.
    destruct n as [|n]; [lia|].
    eexists _, _. split; [reflexivity|].
    pose proof (Z.mod_pos_bound (high_bits s) (Z.of_nat (S n))). lia.
Qed.

End LcgFacts.

(** ** The whole function *)

Section FunctionFacts.
Context {E : Environment}.

Lemma map_ext (m1 m2 : Map) :
  map_location m1 = map_location m2 -> zoom_start m1 = zoom_start m2 ->
  map_tiles m1 = map_tiles m2 -> children m1 = children m2 -> m1 = m2.
Proof. destruct m1, m2. simpl. congruence. Qed.

Lemma finished_map points :
  add_to (MiniMap true)
    (add_to LayerControl
       (add_to (roi_polygon center_lat center_lon)
          (add_markers points
             (add_to satellite_layer
                (folium_Map (center_lat, center_lon) 12 "OpenStreetMap"))))) =
  map_of points.
Proof.
  set (base := add_to satellite_layer _).
  destruct (add_markers_header points base) as (Hloc & Hzoom & Htiles).
  apply map_ext; simpl.
  - now rewrite Hloc.
  - now rewrite Hzoom.
  - now rewrite Htiles.
  - rewrite add_markers_children. simpl.
    now rewrite <- !app_assoc.
Qed.

(** The function is: reseed with 42, draw the count in [[5, 15)], run the
    generation loop with the source's constants, and draw the map of the
    points. *)
Lemma create_detection_results_map_eq detection_data config w :
  create_detection_results_map detection_data config w =
  bind (np_random_randint 5 15)
    (fun n_detections =>
       bind (generate (center_lat, center_lon) n_detections
               (0.3, 0.95) (0.02, 0.03))
            (fun points => ret (map_of points)))
    (seed 42, snd w).
Proof.
  unfold create_detection_results_map.
  unfold bind at 1. unfold np_random_seed at 1.
  unfold bind at 1 3.
  destruct (np_random_randint 5 15 (seed 42, snd w)) as [e | [n w1]];
    [reflexivity|].
  unfold bind at 1. rewrite add_detections_generate. unfold bind.
  destruct (generate _ n _ _ w1) as [e | [points w2]]; [reflexivity|].
  unfold ret. now rewrite finished_map.
Qed.

Lemma create_detection_results_map_inv detection_data config w m w' :
  create_detection_results_map detection_data config w = Returned (m, w') ->
  exists n s1 points,
    randint 5 15 (seed 42) = Returned (n, s1) /\
    generate (center_lat, center_lon) n (0.3, 0.95) (0.02, 0.03) (s1, snd w)
      = Returned (points, w') /\
    m = map_of points.
Proof.
  rewrite create_detection_results_map_eq. intros H.
  apply bind_inv_returned in H as (n & w1 & Hn & H).
  apply bind_inv_returned in H as (points & w2 & Hgen & H).
  injection H as <- <-.
  apply draw_inv_returned in Hn as [Hn Hclk]. simpl in Hn, Hclk.
  exists n, (fst w1), points. split; [exact Hn|]. split; [|reflexivity].
  rewrite <- Hclk, <- surjective_pairing. exact Hgen.
Qed.

(** The incoming generator state is overwritten by the seed before the
    first draw. *)
Lemma create_detection_results_map_reseeds detection_data config s1 s2 clk :
  create_detection_results_map detection_data config (s1, clk) =
  create_detection_results_map detection_data config (s2, clk).
Proof. rewrite !create_detection_results_map_eq. reflexivity. Qed.

End FunctionFacts.

(** ** Binary64 rounding *)

Section RoundingFacts.

Lemma pow2_pos e : 0 < pow2 e.
Proof. apply Qpower_0_lt. reflexivity. Qed.

Lemma pow2_add a b : pow2 (a + b) == pow2 a * pow2 b.
Proof. apply Qpower_plus. discriminate. Qed.

Lemma pow2_le a b : (a <= b)%Z -> pow2 a <= pow2 b.
Proof. intros H. apply Qpower_le_compat_l; [exact H | discriminate]. Qed.

Lemma pow2_lt_inv a b : pow2 a < pow2 b -> (a < b)%Z.
Proof. intros H. apply (Qpower_lt_compat_l_inv 2); [exact H | reflexivity]. Qed.

Lemma pow2_Z n : (0 <= n)%Z -> pow2 n == inject_Z (2 ^ n).
Proof. intros H. unfold pow2. now rewrite Zpower_Qpower. Qed.

Lemma floor_bounds x : inject_Z (Qfloor x) <= x /\ x < inject_Z (Qfloor x) + 1.
Proof.
  split; [apply Qfloor_le|].
  pose proof (Qlt_floor x) as H. rewrite inject_Z_plus in H. exact H.
Qed.

Lemma rne_cases x :
  (rne x = Qfloor x /\ x - inject_Z (Qfloor x) <= 1 # 2) \/
  (rne x = (Qfloor x + 1)%Z /\ 1 # 2 <= x - inject_Z (Qfloor x)).
Proof.
  unfold rne.
  destruct (Qcompare_spec (x - inject_Z (Qfloor x)) (1 # 2)) as [H | H | H].
  - destruct (Z.even (Qfloor x)); [left | right]; split; try reflexivity;
      rewrite H; apply Qle_refl.
  - left. split; [reflexivity | apply Qlt_le_weak; exact H].
  - right. split; [reflexivity | apply Qlt_le_weak; exact H].
Qed.

Lemma rne_error x : Qabs (inject_Z (rne x) - x) <= 1 # 2.
Proof.
  destruct (floor_bounds x) as [Hlo Hhi].
  apply Qabs_Qle_condition.
  destruct (rne_cases x) as [[-> H] | [-> H]].
  - split; lra.
  - rewrite inject_Z_plus. change (inject_Z 1) with 1. split; lra.
Qed.

Lemma rne_Z n : rne (inject_Z n) = n.
Proof.
  unfold rne. rewrite Qfloor_Z.
  destruct (Qcompare_spec (inject_Z n - inject_Z n) (1 # 2)) as [H | H | H];
    try reflexivity; exfalso; lra.
Qed.

Lemma rne_mono x y : x <= y -> (rne x <= rne y)%Z.
Proof.
  intros Hxy.
  pose proof (Qfloor_resp_le x y Hxy) as Hf.
  destruct (Z.eq_dec (Qfloor x) (Qfloor y)) as [E | N].
  - unfold rne. rewrite E.
    assert (Hd : x - inject_Z (Qfloor y) <= y - inject_Z (Qfloor y)) by lra.
    destruct (Qcompare_spec (x - inject_Z (Qfloor y)) (1 # 2)) as [Hx | Hx | Hx];
    destruct (Qcompare_spec (y - inject_Z (Qfloor y)) (1 # 2)) as [Hy | Hy | Hy];
      try lia; try (exfalso; lra);
      destruct (Z.even (Qfloor y)); lia.
  - destruct (rne_cases x) as [[-> _] | [-> _]],
             (rne_cases y) as [[-> _] | [-> _]]; lia.
Qed.

Lemma ilog2_spec x : 0 < x -> pow2 (ilog2 x) <= x /\ x < pow2 (ilog2 x + 1).
Proof.
  intros Hx. destruct x as [n d]. unfold ilog2. simpl Qnum. simpl Qden.
  assert (Hn : (0 < n)%Z) by (unfold Qlt in Hx; simpl in Hx; lia).
  set (a := Z.log2 n). set (b := Z.log2 (Zpos d)).
  destruct (Z.log2_spec n Hn) as [Ha1 Ha2]. fold a in Ha1, Ha2.
  destruct (Z.log2_spec (Zpos d) eq_refl) as [Hb1 Hb2]. fold b in Hb1, Hb2.
  assert (Ha0 : (0 <= a)%Z) by apply Z.log2_nonneg.
  assert (Hb0 : (0 <= b)%Z) by apply Z.log2_nonneg.
  assert (HD : 0 < inject_Z (Zpos d)) by reflexivity.
  assert (Hx' : (n # d) * inject_Z (Zpos d) == inject_Z n).
  { rewrite (Qmake_Qdiv n d). field. discriminate. }
  assert (Qa1 : pow2 a <= inject_Z n).
  { rewrite pow2_Z by exact Ha0. rewrite <- Zle_Qle. exact Ha1. }
  assert (Qa2 : inject_Z n < pow2 (a + 1)).
  { rewrite pow2_Z by lia. rewrite <- Zlt_Qlt. replace (a + 1)%Z with (Z.succ a) by lia. exact Ha2. }
  assert (Qb1 : pow2 b <= inject_Z (Zpos d)).
  { rewrite pow2_Z by exact Hb0. rewrite <- Zle_Qle. exact Hb1. }
  assert (Qb2 : inject_Z (Zpos d) < pow2 (b + 1)).
  { rewrite pow2_Z by lia. rewrite <- Zlt_Qlt. replace (b + 1)%Z with (Z.succ b) by lia. exact Hb2. }
  assert (Hup : (n # d) < pow2 (a - b + 1)).
  { apply (Qmult_lt_r _ _ (inject_Z (Zpos d)) HD). rewrite Hx'.
    eapply Qlt_le_trans; [exact Qa2|].
    replace (a + 1)%Z with ((a - b + 1) + b)%Z by lia. rewrite pow2_add.
    apply Qmult_le_l; [apply pow2_pos | exact Qb1]. }
  assert (Hlow : pow2 (a - b - 1) <= (n # d)).
  { apply (Qmult_le_r _ _ (inject_Z (Zpos d)) HD). rewrite Hx'.
    eapply Qle_trans; [|exact Qa1].
    replace a with ((a - b - 1) + (b + 1))%Z at 2 by lia. rewrite pow2_add.
    apply Qmult_le_l; [apply pow2_pos | apply Qlt_le_weak; exact Qb2]. }
  destruct (Qle_bool (pow2 (a - b)) (n # d)) eqn:E.
  - apply Qle_bool_iff in E. split; [exact E | exact Hup].
  - split; [exact Hlow|].
    replace (a - b - 1 + 1)%Z with (a - b)%Z by lia.
    apply Qnot_le_lt. intros H. apply Qle_bool_iff in H. congruence.
Qed.

Lemma ilog2_mono x y : 0 < x -> x <= y -> (ilog2 x <= ilog2 y)%Z.
Proof.
  intros Hx Hxy.
  destruct (ilog2_spec x Hx) as [H1 _].
  destruct (ilog2_spec y) as [_ H2]; [lra|].
  assert (H : pow2 (ilog2 x) < pow2 (ilog2 y + 1)) by lra.
  apply pow2_lt_inv in H. lia.
Qed.

Lemma ilog2_lt x E : 0 < x -> x < pow2 (E + 1) -> (ilog2 x <= E)%Z.
Proof.
  intros Hx Hlt. destruct (ilog2_spec x Hx) as [H1 _].
  assert (H : pow2 (ilog2 x) < pow2 (E + 1)) by lra.
  apply pow2_lt_inv in H. lia.
Qed.

Lemma pow2_split e k : (k <= e)%Z -> pow2 e == inject_Z (2 ^ (e - k)) * pow2 k.
Proof.
  intros H. rewrite <- pow2_Z by lia. rewrite <- pow2_add.
  replace (e - k + k)%Z with e by lia. reflexivity.
Qed.

Lemma scaled_upper x k N :
  x <= inject_Z N * pow2 k ->
  inject_Z (rne (x / pow2 k)) * pow2 k <= inject_Z N * pow2 k.
Proof.
  intros H. pose proof (pow2_pos k) as Hk.
  apply Qmult_le_r; [exact Hk|]. rewrite <- Zle_Qle.
  rewrite <- (rne_Z N). apply rne_mono.
  apply Qle_shift_div_r; assumption.
Qed.

Lemma scaled_lower x k N :
  inject_Z N * pow2 k <= x ->
  inject_Z N * pow2 k <= inject_Z (rne (x / pow2 k)) * pow2 k.
Proof.
  intros H. pose proof (pow2_pos k) as Hk.
  apply Qmult_le_r; [exact Hk|]. rewrite <- Zle_Qle.
  rewrite <- (rne_Z N) at 1. apply rne_mono.
  apply Qle_shift_div_l; assumption.
Qed.

Lemma rnd_pos_nonneg x : 0 <= x -> 0 <= rnd_pos x.
Proof.
  intros H. unfold rnd_pos.
  pose proof (scaled_lower x (quantum x) 0) as L.
  rewrite Qmult_0_l in L. apply L. exact H.
Qed.

Lemma quantum_mono x y : 0 < x -> x <= y -> (quantum x <= quantum y)%Z.
Proof.
  intros Hx Hxy. unfold quantum.
  pose proof (ilog2_mono x y Hx Hxy). lia.
Qed.

Lemma rnd_pos_mono x y : 0 < x -> x <= y -> rnd_pos x <= rnd_pos y.
Proof.
  intros Hx Hxy.
  assert (Hy : 0 < y) by lra.
  pose proof (quantum_mono x y Hx Hxy) as Hq.
  destruct (Z.eq_dec (quantum x) (quantum y)) as [E | N].
  - unfold rnd_pos. rewrite E.
    pose proof (pow2_pos (quantum y)) as Hk.
    apply Qmult_le_r; [exact Hk|]. rewrite <- Zle_Qle. apply rne_mono.
    apply Qmult_le_r; [apply Qinv_lt_0_compat; exact Hk | exact Hxy].
  - assert (Hky : quantum y = (ilog2 y - 52)%Z) by (unfold quantum in *; lia).
    assert (Hlog : (ilog2 x < ilog2 y)%Z) by (unfold quantum in *; lia).
    destruct (ilog2_spec x Hx) as [_ Hx2].
    destruct (ilog2_spec y Hy) as [Hy1 _].
    apply Qle_trans with (pow2 (ilog2 y)).
    + assert (Hxe : x <= pow2 (ilog2 y)).
      { apply Qlt_le_weak. eapply Qlt_le_trans; [exact Hx2|].
        apply pow2_le. lia. }
      rewrite (pow2_split (ilog2 y) (quantum x)) in * by lia.
      unfold rnd_pos. apply scaled_upper. exact Hxe.
    + rewrite (pow2_split (ilog2 y) (quantum y)) in * by lia.
      unfold rnd_pos. apply scaled_lower. exact Hy1.
Qed.

Lemma rnd_pos_error x :
  Qabs (rnd_pos x - x) <= pow2 (quantum x) * (1 # 2).
Proof.
  pose proof (pow2_pos (quantum x)) as Hk. unfold rnd_pos.
  set (P := pow2 (quantum x)) in *.
  assert (E : inject_Z (rne (x / P)) * P - x ==
              (inject_Z (rne (x / P)) - x / P) * P).
  { field. intros H. rewrite H in Hk. discriminate Hk. }
  rewrite E, Qabs_Qmult, (Qabs_pos P) by lra.
  rewrite (Qmult_comm P). apply Qmult_le_r; [exact Hk|]. apply rne_error.
Qed.

Lemma rnd_eq x :
  rnd x == match Qcompare x 0 with
           | Eq => 0 | Gt => rnd_pos x | Lt => - rnd_pos (- x)
           end.
Proof. unfold rnd. apply Qred_correct. Qed.

Lemma rnd_of_pos x : 0 < x -> rnd x == rnd_pos x.
Proof.
  intros H. rewrite rnd_eq.
  destruct (Qcompare_spec x 0) as [E | L | G];
    [exfalso; lra | exfalso; lra | reflexivity].
Qed.

Lemma rnd_of_neg x : x < 0 -> rnd x == - rnd_pos (- x).
Proof.
  intros H. rewrite rnd_eq.
  destruct (Qcompare_spec x 0) as [E | L | G];
    [exfalso; lra | reflexivity | exfalso; lra].
Qed.

Lemma rnd_of_zero x : x == 0 -> rnd x == 0.
Proof.
  intros H. rewrite rnd_eq.
  destruct (Qcompare_spec x 0) as [E | L | G];
    [reflexivity | exfalso; lra | exfalso; lra].
Qed.

Lemma rnd_nonneg x : 0 <= x -> 0 <= rnd x.
Proof.
  intros H. destruct (Qlt_le_dec 0 x) as [Hp | Hz].
  - rewrite rnd_of_pos by exact Hp. apply rnd_pos_nonneg. exact H.
  - rewrite rnd_of_zero by lra. apply Qle_refl.
Qed.

Lemma rnd_nonpos x : x <= 0 -> rnd x <= 0.
Proof.
  intros H. destruct (Qlt_le_dec x 0) as [Hn | Hz].
  - rewrite rnd_of_neg by exact Hn.
    pose proof (rnd_pos_nonneg (- x)). lra.
  - rewrite rnd_of_zero by lra. apply Qle_refl.
Qed.

Lemma rnd_mono x y : x <= y -> rnd x <= rnd y.
Proof.
  intros Hxy. destruct (Qlt_le_dec 0 x) as [Hx | Hx].
  - rewrite (rnd_of_pos x), (rnd_of_pos y) by lra.
    apply rnd_pos_mono; assumption.
  - destruct (Qlt_le_dec y 0) as [Hy | Hy].
    + rewrite (rnd_of_neg x), (rnd_of_neg y) by lra.
      apply Qopp_le_compat. apply rnd_pos_mono; lra.
    + apply Qle_trans with 0; [apply rnd_nonpos | apply rnd_nonneg];
        assumption.
Qed.


Lemma rnd_error x E :
  Qabs x < pow2 (E + 1) -> (-1074 <= E - 52)%Z ->
  Qabs (rnd x - x) <= pow2 (E - 53).
Proof.
  intros Hx HE.
  assert (Hhalf : forall z, 0 < z -> z < pow2 (E + 1) ->
                  Qabs (rnd_pos z - z) <= pow2 (E - 53)).
  { intros z Hz Hlt. eapply Qle_trans; [apply rnd_pos_error|].
    pose proof (ilog2_lt z E Hz Hlt) as Hl.
    replace (E - 53)%Z with ((E - 52) + (-1))%Z by lia.
    rewrite pow2_add. change (pow2 (-1)) with (1 # 2).
    apply Qmult_le_r; [reflexivity|]. apply pow2_le.
    unfold quantum. lia. }
  destruct (Q_dec x 0) as [[Hn | Hp] | Hz].
  - rewrite (rnd_of_neg x Hn).
    assert (Ha : Qabs x == - x) by (apply Qabs_neg; lra).
    specialize (Hhalf (- x)). rewrite Ha in Hx.
    assert (E' : - rnd_pos (- x) - x == - (rnd_pos (- x) - - x)) by ring.
    rewrite E', Qabs_opp. apply Hhalf; lra.
  - rewrite (rnd_of_pos x Hp).
    assert (Ha : Qabs x == x) by (apply Qabs_pos; lra).
    rewrite Ha in Hx. apply Hhalf; assumption.
  - rewrite (rnd_of_zero x Hz), Hz. simpl.
    apply Qlt_le_weak, pow2_pos.
Qed.

Lemma b64_mono x y : x <= y -> b64 x <= b64 y.
Proof. apply rnd_mono. Qed.

Lemma fadd_mono x1 y1 x2 y2 :
  x1 <= x2 -> y1 <= y2 -> fadd x1 y1 <= fadd x2 y2.
Proof. intros Hx Hy. apply rnd_mono. lra. Qed.

Lemma fsub_mono x1 y1 x2 y2 :
  x1 <= x2 -> y2 <= y1 -> fsub x1 y1 <= fsub x2 y2.
Proof. intros Hx Hy. apply rnd_mono. lra. Qed.

Lemma fmul_mono_r x1 x2 y : 0 <= y -> x1 <= x2 -> fmul x1 y <= fmul x2 y.
Proof.
  intros Hy Hx. apply rnd_mono. apply Qmult_le_compat_r; assumption.
Qed.

End RoundingFacts.

(** The rounding agrees with the kernel's binary64 arithmetic on the
    values this file quotes. *)
Module Binary64Check.
Import PrimFloat.
#[local] Set Warnings "-inexact-float".

Example radius_at_0625 :
  Q_of_float (8 + 0.625 * 10)%float = Some (radius_b64 0.625).
Proof. vm_compute. reflexivity. Qed.

Example radius_after_0625 :
  Q_of_float (8 + 0.6250000000000001 * 10)%float =
  Some (radius_b64 (b64 0.6250000000000001)).
Proof. vm_compute. reflexivity. Qed.

Example radius_below_08 :
  Q_of_float (8 + 0.7999999999999999 * 10)%float =
  Some (radius_b64 (b64 0.7999999999999999)).
Proof. vm_compute. reflexivity. Qed.

Example corner_latitude :
  Q_of_float (40.0155 + 0.03)%float =
  Some (fadd (b64 40.0155) (b64 0.03)).
Proof. vm_compute. reflexivity. Qed.

Example corner_longitude :
  Q_of_float (-105.2705 - 0.04)%float =
  Some (fsub (b64 (-105.2705)) (b64 0.04)).
Proof. vm_compute. reflexivity. Qed.

Example third_and_subnormal :
  Q_of_float (1 / 3)%float = Some (b64 (1 # 3)) /\
  Q_of_float 5e-324%float = Some (b64 5e-324) /\
  Q_of_float 1e-320%float = Some (b64 1e-320) /\
  Q_of_float (0.1 + 0.2)%float = Some (fadd (b64 0.1) (b64 0.2)) /\
  Q_of_float (0.1 * 3)%float = Some (fmul (b64 0.1) 3).
Proof. vm_compute. repeat split. Qed.

End Binary64Check.

(** ** The radius in binary64 *)

Ltac qclosed :=
  unfold Qle, Qlt, Qeq; vm_compute;
  first [reflexivity | let H := fresh in intro H; discriminate H].

Lemma rnd_10 : rnd 10 = 10.
Proof. vm_compute. reflexivity. Qed.

Lemma radius_b64_mono c1 c2 : c1 <= c2 -> radius_b64 c1 <= radius_b64 c2.
Proof.
  intros H. unfold radius_b64.
  apply fadd_mono; [lra|]. apply fmul_mono_r; [lra | exact H].
Qed.

(** On [[0, 1]] the float result is within 2^-48 of the exact one. *)
Lemma radius_b64_close c :
  0 <= c -> c <= 1 -> Qabs (radius_b64 c - radius c) <= pow2 (-48).
Proof.
  intros H0 H1. unfold radius_b64, radius, fadd, fmul.
  set (m := rnd (c * 10)).
  assert (Hm0 : 0 <= m) by (apply rnd_nonneg; lra).
  assert (Hm10 : m <= 10).
  { apply Qle_trans with (rnd 10); [apply rnd_mono; lra|].
    rewrite rnd_10. apply Qle_refl. }
  assert (E1 : Qabs (m - c * 10) <= pow2 (-50)).
  { apply (rnd_error (c * 10) 3); [|lia].
    assert (P : pow2 (3 + 1) == 16) by qclosed.
    apply Qabs_Qlt_condition. split; lra. }
  assert (E2 : Qabs (rnd (8 + m) - (8 + m)) <= pow2 (-49)).
  { apply (rnd_error (8 + m) 4); [|lia].
    assert (P : pow2 (4 + 1) == 32) by qclosed.
    apply Qabs_Qlt_condition. split; lra. }
  assert (Hsum : pow2 (-49) + pow2 (-50) <= pow2 (-48)) by qclosed.
  apply Qabs_Qle_condition in E1, E2. apply Qabs_Qle_condition.
  split; lra.
Qed.

(** Confidences at least 2^-50 apart get different radii. *)
Lemma radius_b64_gap c1 c2 :
  0 <= c1 -> c2 <= 1 -> c1 + pow2 (-50) <= c2 ->
  radius_b64 c1 < radius_b64 c2.
Proof.
  intros H0 H1 Hgap.
  assert (Hp : 0 < pow2 (-50)) by apply pow2_pos.
  assert (H48 : pow2 (-48) == 4 * pow2 (-50)) by qclosed.
  pose proof (radius_b64_close c1) as C1.
  pose proof (radius_b64_close c2) as C2.
  rewrite H48 in C1, C2.
  apply Qabs_Qle_condition in C1; [|lra|lra].
  apply Qabs_Qle_condition in C2; [|lra|lra].
  unfold radius in *. lra.
Qed.

(** ** Facts about [generate] *)

Section GenerateFacts.
Context {E : Environment}.
Variables center confidenceRange jitterStdDev : Q * Q.

Lemma generate_generated count w points w' :
  generate center count confidenceRange jitterStdDev w = Returned (points, w')
  <-> generated center confidenceRange jitterStdDev (Z.to_nat count) w points w'.
Proof. rewrite generate_unfold. apply collect_generated. Qed.


Lemma generate_Forall (P : DetectionPoint -> Prop) :
  (forall w p w',
     detection_point center confidenceRange jitterStdDev w = Returned (p, w') ->
     P p) ->
  forall count w points w',
    generate center count confidenceRange jitterStdDev w = Returned (points, w') ->
    Forall P points.
Proof.
  intros HP count w points w' H. apply generate_generated in H.
  eapply generated_Forall; eassumption.
Qed.

Lemma generate_succ count w :
  (0 <= count)%Z ->
  generate center (Z.succ count) confidenceRange jitterStdDev w =
  bind (detection_point center confidenceRange jitterStdDev)
    (fun p =>
       bind (generate center count confidenceRange jitterStdDev)
            (fun points => ret (p :: points))) w.
Proof.
  intros H. rewrite !generate_unfold, Z2Nat.inj_succ by exact H.
  rewrite collect_S. reflexivity.
Qed.

Lemma generate_alert_levels count w points w' :
  generate center count confidenceRange jitterStdDev w = Returned (points, w') ->
  Forall (fun p => alert_level p = classifyAlertLevel (confidence p) /\
                   color p = marker_color (confidence p)) points.
Proof.
  apply generate_Forall. intros v p v' H.
  apply detection_point_inv in H as (dlat & dlon & c & act & t & _ & _ & ->).
  split; reflexivity.
Qed.






(** With non-negative deviations the loop returns, whatever the count
    and the confidence bounds. *)
Lemma generate_returns (numpy : NumpyContract E) count w :
  0 <= fst jitterStdDev -> 0 <= snd jitterStdDev ->
  exists points w',
    generate center count confidenceRange jitterStdDev w = Returned (points, w')
    /\ List.length points = Z.to_nat count.
Proof.
  intros Hlat Hlon.
  destruct (generated_total center confidenceRange jitterStdDev
              (detection_point_returns numpy _ _ _ Hlat Hlon)
              (Z.to_nat count) w) as (points & w' & H).
  exists points, w'. split.
  - apply generate_generated. exact H.
  - eapply generated_length. exact H.
Qed.

End GenerateFacts.

(** ** Tiers and thresholds *)

Lemma level_matches_classify c : level_matches c (classifyAlertLevel c).
Proof. exact (classify_inv c). Qed.

Lemma level_matches_unique c1 c2 l1 l2 :
  c1 == c2 -> level_matches c1 l1 -> level_matches c2 l2 -> l1 = l2.
Proof.
  intros E H1 H2.
  destruct l1, l2; simpl in *; try reflexivity; exfalso;
    repeat match goal with H : _ /\ _ |- _ => destruct H end; lra.
Qed.

Lemma marker_color_Qeq c1 c2 : c1 == c2 -> marker_color c1 = marker_color c2.
Proof.
  intros E. rewrite !marker_color_level, (classify_Qeq c1 c2 E). reflexivity.
Qed.

(** * The claims of the specification *)

(** ** Alert classification *)

(** C1.  [classifyAlertLevel] is a function of the confidence alone, tested
    against 0.8 first and 0.6 second: every confidence in [0, 0.6) is LOW,
    every confidence in [0.6, 0.8) is MEDIUM, every confidence from 0.8 on
    is HIGH; at the boundaries 0.8 is HIGH, 0.6 is MEDIUM and 0.5999999 is
    LOW. *)
Theorem classifyAlertLevel_thresholds :
  (forall c, 0 <= c -> c < 0.6 -> classifyAlertLevel c = LOW) /\
  (forall c, 0.6 <= c -> c < 0.8 -> classifyAlertLevel c = MEDIUM) /\
  (forall c, 0.8 <= c -> classifyAlertLevel c = HIGH) /\
  classifyAlertLevel 0.8 = HIGH /\
  classifyAlertLevel 0.6 = MEDIUM /\
  classifyAlertLevel 0.5999999 = LOW.
Proof.
  split; [|split; [|split]].
  - intros c _ H. apply classify_low. exact H.
  - exact classify_medium.
  - exact classify_high.
  - repeat split.
Qed.

Lemma classifyAlertLevel_thresholds_witness :
  classifyAlertLevel 0.25 = LOW /\
  classifyAlertLevel 0.7 = MEDIUM /\
  classifyAlertLevel 0.93 = HIGH.
Proof.
  destruct classifyAlertLevel_thresholds as (Hlow & Hmedium & Hhigh & _).
  split; [|split].
  - apply Hlow; lra.
  - apply Hmedium; lra.
  - apply Hhigh; lra.
Defined.

(** C9.  The classification accepts every rational, inside [0, 1] or not,
    and puts it in exactly one tier: below 0.6 (negative values too) it
    is LOW, from 0.8 on (values above 1 too) it is HIGH, and MEDIUM in
    between. *)
Theorem classifyAlertLevel_total (c : Q) :
  (c < 0.6 -> classifyAlertLevel c = LOW) /\
  (0.8 <= c -> classifyAlertLevel c = HIGH) /\
  (c < 0 -> classifyAlertLevel c = LOW) /\
  (1 < c -> classifyAlertLevel c = HIGH) /\
  (classifyAlertLevel c = LOW /\ c < 0.6 \/
   classifyAlertLevel c = MEDIUM /\ 0.6 <= c /\ c < 0.8 \/
   classifyAlertLevel c = HIGH /\ 0.8 <= c).
Proof.
  split; [apply classify_low|].
  split; [apply classify_high|].
  split; [intros H; apply classify_low; lra|].
  split; [intros H; apply classify_high; lra|].
  pose proof (classify_inv c) as H.
  destruct (classifyAlertLevel c); auto.
Qed.

Lemma classifyAlertLevel_total_witness :
  classifyAlertLevel (-1) = LOW /\ classifyAlertLevel 2 = HIGH.
Proof.
  split.
  - apply (classifyAlertLevel_total (-1)). lra.
  - apply (classifyAlertLevel_total 2). lra.
Defined.

(** ** Marker radius *)

(** The formula of line 176 is strictly increasing in exact arithmetic. *)
Lemma radius_strictly_increasing (c1 c2 : Q) :
  c1 < c2 -> radius c1 < radius c2.
Proof. unfold radius. intros H. lra. Qed.

(** C7, as stated, fails on the floats line 176 computes: 0.625 and the
    next float above it, 0.6250000000000001, get the same radius
    14.25. *)
Lemma radius_b64_not_strict :
  0.625 < b64 0.6250000000000001 /\
  radius_b64 0.625 == 14.25 /\
  radius_b64 (b64 0.6250000000000001) == 14.25 /\
  ~ radius_b64 0.625 < radius_b64 (b64 0.6250000000000001).
Proof.
  split; [qclosed|]. split; [qclosed|]. split; [qclosed|].
  unfold Qlt. vm_compute. intros H. discriminate H.
Qed.

(** C7, amended.  On confidences in [0, 1] the radius that line 176
    computes is non-decreasing, stays within 2^-48 of [8 + confidence *
    10], and is strictly larger for a confidence that is at least 2^-50
    larger; closer confidences can share a radius. *)
Theorem radius_b64_monotone (c1 c2 : Q) :
  0 <= c1 -> c1 <= c2 -> c2 <= 1 ->
  radius_b64 c1 <= radius_b64 c2 /\
  Qabs (radius_b64 c1 - (8 + c1 * 10)) <= pow2 (-48) /\
  (c1 + pow2 (-50) <= c2 -> radius_b64 c1 < radius_b64 c2).
Proof.
  intros H0 H12 H1. split; [|split].
  - apply radius_b64_mono. exact H12.
  - apply (radius_b64_close c1); lra.
  - intros Hgap. apply radius_b64_gap; assumption.
Qed.

Lemma radius_b64_monotone_witness :
  radius_b64 0.3 <= radius_b64 0.95 /\
  Qabs (radius_b64 0.3 - (8 + 0.3 * 10)) <= pow2 (-48) /\
  radius_b64 0.3 < radius_b64 0.95.
Proof.
  destruct (radius_b64_monotone 0.3 0.95) as (Hle & Hclose & Hlt);
    [lra | lra | lra |].
  split; [exact Hle|]. split; [exact Hclose|].
  apply Hlt. qclosed.
Defined.

(** ** Generated points *)

(** C6.  Every point [generate] returns carries the tier its confidence
    has under the thresholds: HIGH from 0.8 on, MEDIUM from 0.6 to below
    0.8, LOW below 0.6, which is the value of [classifyAlertLevel]; every
    marker of a returned map shows the tier of the confidence it shows.
    The tier depends on the value of the confidence alone: two points of
    any two runs with equal confidences have the same tier and colour.
    Computing it has no effect: a point leaves the generator as its
    fourth draw left it and the clock as its one reading left it. *)
Theorem alert_level_consistent :
  (forall (E : Environment) center count confidenceRange jitterStdDev
          w points w',
     generate center count confidenceRange jitterStdDev w =
       Returned (points, w') ->
     Forall (fun p => level_matches (confidence p) (alert_level p) /\
                      alert_level p = classifyAlertLevel (confidence p))
       points) /\
  (forall (E : Environment) detection_data config w m w',
     create_detection_results_map detection_data config w =
       Returned (m, w') ->
     Forall marker_level_matches (children m)) /\
  (forall (E1 E2 : Environment)
          center1 count1 range1 jitter1 w1 points1 w1'
          center2 count2 range2 jitter2 w2 points2 w2' p1 p2,
     generate (E := E1) center1 count1 range1 jitter1 w1 =
       Returned (points1, w1') ->
     generate (E := E2) center2 count2 range2 jitter2 w2 =
       Returned (points2, w2') ->
     In p1 points1 -> In p2 points2 ->
     confidence p1 == confidence p2 ->
     alert_level p1 = alert_level p2 /\ color p1 = color p2) /\
  (forall (E : Environment) center confidenceRange jitterStdDev w p w',
     detection_point center confidenceRange jitterStdDev w =
       Returned (p, w') ->
     exists dlat dlon act t,
       point_draws confidenceRange jitterStdDev (fst w) dlat dlon
         (confidence p) act (fst w') /\
       now (snd w) = (t, snd w')).
Proof.
  split; [|split; [|split]].
  - intros E center count confidenceRange jitterStdDev w points w' H.
    apply generate_alert_levels in H.
    eapply Forall_impl; [|exact H]. intros p [Hp _].
    split; [|exact Hp]. rewrite Hp. apply level_matches_classify.
  - intros E detection_data config w m w' H.
    apply create_detection_results_map_inv in H
      as (n & s1 & points & _ & Hgen & ->).
    apply generate_alert_levels in Hgen.
    simpl. constructor; [exact I|]. constructor; [exact I|].
    apply Forall_app. split.
    + apply Forall_map. eapply Forall_impl; [|exact Hgen].
      intros p [Hlvl _]. simpl. rewrite Hlvl.
      apply level_matches_classify.
    + repeat constructor.
  - intros E1 E2 center1 count1 range1 jitter1 w1 points1 w1'
           center2 count2 range2 jitter2 w2 points2 w2' p1 p2
           H1 H2 In1 In2 Hc.
    apply generate_alert_levels in H1, H2.
    rewrite Forall_forall in H1, H2.
    destruct (H1 p1 In1) as [L1 C1]. destruct (H2 p2 In2) as [L2 C2].
    rewrite L1, L2, C1, C2. split.
    + apply classify_Qeq. exact Hc.
    + apply marker_color_Qeq. exact Hc.
  - intros E center confidenceRange jitterStdDev w p w' H.
    apply detection_point_inv in H
      as (dlat & dlon & c & act & t & Hd & Hnow & ->).
    exists dlat, dlon, act, t. split; assumption.
Qed.

Lemma alert_level_consistent_witness :
  generate (E := Lcg.env) (40.0155, -105.2705) 10 (0.3, 0.95) (0.02, 0.03)
    sample_world = Returned (sample_points, sample_final) /\
  Forall (fun p => level_matches (confidence p) (alert_level p) /\
                   alert_level p = classifyAlertLevel (confidence p))
    sample_points.
Proof.
  destruct alert_level_consistent as (Hgen & _).
  split; [vm_compute; reflexivity|].
  apply (Hgen Lcg.env (40.0155, -105.2705) 10%Z (0.3, 0.95) (0.02, 0.03)
           sample_world sample_points sample_final).
  vm_compute. reflexivity.
Defined.



(** C4.  With a count of 0 [generate] returns the empty sequence and
    leaves the world as it was.  With any count [>= 0] (and deviations
    numpy accepts) it returns exactly [count] points, in the order the
    iterations produce them: the first [k] points of the result are the
    result of a run of [k] iterations. *)
Theorem generate_returns_count {E : Environment}
    center confidenceRange jitterStdDev w :
  generate center 0 confidenceRange jitterStdDev w = Returned ([], w) /\
  (NumpyContract E -> 0 <= fst jitterStdDev -> 0 <= snd jitterStdDev ->
   forall count, (0 <= count)%Z ->
     exists points w',
       generate center count confidenceRange jitterStdDev w =
         Returned (points, w') /\
       Z.of_nat (List.length points) = count /\
       forall k, (0 <= k <= count)%Z ->
         exists w1,
           generate center k confidenceRange jitterStdDev w =
           Returned (firstn (Z.to_nat k) points, w1)).
Proof.
  split; [reflexivity|].
  intros numpy Hlat Hlon count Hcount.
  destruct (generate_returns center confidenceRange jitterStdDev numpy
              count w Hlat Hlon) as (points & w' & Hgen & Hlen).
  exists points, w'. split; [exact Hgen|]. split; [lia|].
  intros k Hk. apply generate_generated in Hgen.
  destruct (generated_firstn _ _ _ _ _ _ _ (Z.to_nat k) Hgen)
    as (w1 & Hfirst & _); [lia|].
  exists w1. apply generate_generated. exact Hfirst.
Qed.

Lemma generate_returns_count_witness :
  generate (E := Lcg.env) (40.0155, -105.2705) 0 (0.3, 0.95) (0.02, 0.03)
    sample_world = Returned ([], sample_world) /\
  exists points w',
    generate (E := Lcg.env) (40.0155, -105.2705) 10 (0.3, 0.95) (0.02, 0.03)
      sample_world = Returned (points, w') /\
    Z.of_nat (List.length points) = 10%Z /\
    forall k, (0 <= k <= 10)%Z ->
      exists w1,
        generate (E := Lcg.env) (40.0155, -105.2705) k (0.3, 0.95)
          (0.02, 0.03) sample_world =
        Returned (firstn (Z.to_nat k) points, w1).
Proof.
  destruct (generate_returns_count (E := Lcg.env) (40.0155, -105.2705)
              (0.3, 0.95) (0.02, 0.03) sample_world) as [Hzero Hcount].
  split; [exact Hzero|].
  apply (Hcount LcgFacts.contract); simpl; first [lra | lia].
Defined.

(** C3.  [generate] is a function of its parameters and of the generator
    state: two runs from the same generator state (whatever the clocks)
    raise the same exception or return sequences with the same latitude,
    longitude, confidence and activity type at every position, and leave
    the same generator state.  Per point the draws are consumed in the
    order latitude jitter, longitude jitter, confidence, activity index,
    and the next point starts from the state the fourth draw left. *)
Theorem generate_deterministic {E : Environment}
    center confidenceRange jitterStdDev :
  (forall count w1 w2, fst w1 = fst w2 ->
     outcome_rel
       (fun points1 w1' points2 w2' =>
          map observable points1 = map observable points2 /\
          fst w1' = fst w2')
       (generate center count confidenceRange jitterStdDev w1)
       (generate center count confidenceRange jitterStdDev w2)) /\
  (forall count s0 clk dlat dlon c act s4 t clk',
     (0 <= count)%Z ->
     point_draws confidenceRange jitterStdDev s0 dlat dlon c act s4 ->
     now clk = (t, clk') ->
     generate center (Z.succ count) confidenceRange jitterStdDev (s0, clk) =
     bind (generate center count confidenceRange jitterStdDev)
          (fun points => ret (point_of center dlat dlon c act t :: points))
          (s4, clk')).
Proof.
  split.
  - intros count w1 w2. apply generate_clock.
  - intros count s0 clk dlat dlon c act s4 t clk' Hcount Hdraws Hnow.
    rewrite generate_succ by exact Hcount.
    pose proof (detection_point_returned center confidenceRange jitterStdDev
                  s0 clk dlat dlon c act s4 t clk' Hdraws Hnow) as Hpoint.
    rewrite (bind_returned _ _ _ _ _ Hpoint). reflexivity.
Qed.

Lemma generate_deterministic_witness :
  outcome_rel (E := Lcg.env)
    (fun points1 w1' points2 w2' =>
       map observable points1 = map observable points2 /\
       fst w1' = fst w2')
    (generate (E := Lcg.env) (40.0155, -105.2705) 10 (0.3, 0.95)
       (0.02, 0.03) (42, 1000)%Z)
    (generate (E := Lcg.env) (40.0155, -105.2705) 10 (0.3, 0.95)
       (0.02, 0.03) (42, 77)%Z) /\
  exists dlat dlon c act s4,
    point_draws (E := Lcg.env) (0.3, 0.95) (0.02, 0.03)
      42%Z dlat dlon c act s4 /\
    generate (E := Lcg.env) (40.0155, -105.2705) (Z.succ 9) (0.3, 0.95)
      (0.02, 0.03) (42, 1000)%Z =
    bind (generate (E := Lcg.env) (40.0155, -105.2705) 9 (0.3, 0.95)
            (0.02, 0.03))
         (fun points =>
            ret (point_of (40.0155, -105.2705) dlat dlon c act 1000%Z
                   :: points))
         (s4, 1001%Z).
Proof.
  destruct (generate_deterministic (E := Lcg.env) (40.0155, -105.2705)
              (0.3, 0.95) (0.02, 0.03)) as [Hsame Horder].
  assert (Hdraws : exists dlat dlon c act s4,
             point_draws (E := Lcg.env) (0.3, 0.95) (0.02, 0.03)
               42%Z dlat dlon c act s4).
  { eexists _, _, _, _, _.
    apply (point_draws_intro (E := Lcg.env) (0.3, 0.95) (0.02, 0.03)
             42%Z _ _ _ _ _
             (Lcg.next 42) (Lcg.next (Lcg.next 42))
             (Lcg.next (Lcg.next (Lcg.next 42)))
             (Z.to_nat (Lcg.high_bits (Lcg.next (Lcg.next (Lcg.next 42)))
                        mod 4)));
      reflexivity. }
  split.
  - apply Hsame. reflexivity.
  - destruct Hdraws as (dlat & dlon & c & act & s4 & Hdraws).
    exists dlat, dlon, c, act, s4. split; [exact Hdraws|].
    apply Horder; [lia | exact Hdraws | reflexivity].
Defined.

(** ** Malformed parameters *)




(** ** The region boundary *)






(** ** The unused parameters *)

(** C10.  The function never reads [detection_data] or [config]: from the
    same world (generator state and clock) any two values of either give
    the same outcome, map and final world alike.  The generator state it
    is called in does not matter either, since it is reseeded first. *)
Theorem create_detection_results_map_ignores_arguments {E : Environment}
    (detection_data1 detection_data2 config1 config2 : pyval) :
  (forall w,
     create_detection_results_map detection_data1 config1 w =
     create_detection_results_map detection_data2 config2 w) /\
  (forall s1 s2 clk,
     create_detection_results_map detection_data1 config1 (s1, clk) =
     create_detection_results_map detection_data2 config2 (s2, clk)).
Proof.
  split.
  - intros w. reflexivity.
  - intros s1 s2 clk.
    apply (create_detection_results_map_reseeds detection_data1 config1).
Qed.

(** * Further properties of the code *)

(** ** Helper facts *)

Lemma map_of_markers points :
  filter is_marker (children (map_of points)) = map circle_marker points.
Proof.
  simpl. rewrite filter_app. simpl. rewrite app_nil_r.
  induction points as [|p points IH]; simpl; [reflexivity|].
  now rewrite IH.
Qed.

Lemma map_of_length points :
  List.length (children (map_of points)) = (List.length points + 5)%nat.
Proof. simpl. rewrite length_app, length_map. simpl. lia. Qed.

Lemma Forall_map_of (P : Element -> Prop) points :
  P (BaseLayer "OpenStreetMap") -> P satellite_layer ->
  P (roi_polygon center_lat center_lon) ->
  P LayerControl -> P (MiniMap true) ->
  Forall (fun p => P (circle_marker p)) points ->
  Forall P (children (map_of points)).
Proof.
  intros Hbase Hsat Hroi Hctl Hmini Hpoints. simpl.
  constructor; [exact Hbase|].
  constructor; [exact Hsat|]. apply Forall_app. split.
  - apply Forall_map. exact Hpoints.
  - repeat constructor; assumption.
Qed.

Lemma point_color_of_level p :
  alert_level p = classifyAlertLevel (confidence p) ->
  color p = marker_color (confidence p) ->
  color p = match alert_level p with
            | HIGH => "red" | MEDIUM => "orange" | LOW => "yellow"
            end%string.
Proof. intros -> ->. apply marker_color_level. Qed.

(** ** The returned map *)

(** X1.  Under numpy's contract a returned map carries between 5 and 14
    markers, besides its five fixed children. *)
Theorem returned_map_marker_count {E : Environment}
    (numpy : NumpyContract E) detection_data config w m w' :
  create_detection_results_map detection_data config w = Returned (m, w') ->
  (5 <= List.length (filter is_marker (children m)) <= 14)%nat /\
  List.length (children m) =
    (List.length (filter is_marker (children m)) + 5)%nat.
Proof.
  intros H.
  apply create_detection_results_map_inv in H
    as (n & s1 & points & Hn & Hgen & ->).
  destruct (randint_returns numpy 5 15 (seed 42)) as (v & s' & Hv & Hrange);
    [lia|].
  rewrite Hn in Hv. injection Hv as <- <-.
  apply generate_generated, generated_length in Hgen.
  rewrite map_of_markers, map_of_length, length_map. lia.
Qed.

Lemma returned_map_marker_count_witness :
  (5 <= List.length (filter is_marker (children sample_map)) <= 14)%nat /\
  List.length (children sample_map) =
    (List.length (filter is_marker (children sample_map)) + 5)%nat.
Proof.
  apply (returned_map_marker_count LcgFacts.contract (PyDict [])
           (dashboard_config 1000%Z) sample_world sample_map
           sample_map_final).
  vm_compute. reflexivity.
Defined.





(** X4.  Every marker on a returned map has a black border of weight 2
    and fill opacity 0.7, a popup of width at most 250 that shows the
    marker's own location, and a fill colour that is red for the level
    HIGH, orange for MEDIUM and yellow for LOW shown in its popup. *)
Theorem markers_styled {E : Environment} detection_data config w m w' :
  create_detection_results_map detection_data config w = Returned (m, w') ->
  Forall marker_styled (children m).
Proof.
  intros H.
  apply create_detection_results_map_inv in H
    as (n & s1 & points & _ & Hgen & ->).
  apply generate_alert_levels in Hgen.
  apply Forall_map_of; try exact I.
  eapply Forall_impl; [|exact Hgen].
  intros p [Hlvl Hcol]. simpl. repeat split.
  apply point_color_of_level; assumption.
Qed.

Lemma markers_styled_witness : Forall marker_styled (children sample_map).
Proof.
  apply (markers_styled (E := Lcg.env) (PyDict [])
           (dashboard_config 1000%Z) sample_world sample_map
           sample_map_final).
  vm_compute. reflexivity.
Defined.

(** X5.  Every point the loop returns has one of the four listed
    activity types, whatever the generator does. *)
Theorem activity_type_listed {E : Environment}
    center count confidenceRange jitterStdDev w points w' :
  generate center count confidenceRange jitterStdDev w =
    Returned (points, w') ->
  Forall (fun p =>
            In (activity_type p)
               ["Illegal Mining"; "Deforestation"; "Construction";
                "Excavation"]%string) points.
Proof.
  apply generate_Forall. intros v p v' H.
  apply detection_point_inv in H as (dlat & dlon & c & act & t & Hd & _ & ->).
  destruct Hd as [s1 s2 s3 k _ _ _ _ Hk].
  apply nth_error_In in Hk. exact Hk.
Qed.

Lemma activity_type_listed_witness :
  Forall (fun p =>
            In (activity_type p)
               ["Illegal Mining"; "Deforestation"; "Construction";
                "Excavation"]%string) sample_points.
Proof.
  apply (activity_type_listed (E := Lcg.env) (40.0155, -105.2705) 10%Z
           (0.3, 0.95) (0.02, 0.03) sample_world sample_points sample_final).
  vm_compute. reflexivity.
Defined.

(** ** Reproducibility *)

Lemma untimed_markers points1 points2 :
  map observable points1 = map observable points2 ->
  Forall (fun p => alert_level p = classifyAlertLevel (confidence p) /\
                   color p = marker_color (confidence p)) points1 ->
  Forall (fun p => alert_level p = classifyAlertLevel (confidence p) /\
                   color p = marker_color (confidence p)) points2 ->
  map untimed (map circle_marker points1) =
  map untimed (map circle_marker points2).
Proof.
  revert points2.
  induction points1 as [|p1 points1 IH]; intros [|p2 points2] Hobs H1 H2;
    try discriminate Hobs; [reflexivity|].
  simpl in Hobs. injection Hobs as Hlat Hlon Hconf Hact Hrest.
  inversion H1 as [|? ? [Hl1 Hc1] H1']; subst.
  inversion H2 as [|? ? [Hl2 Hc2] H2']; subst.
  simpl. rewrite (IH points2 Hrest H1' H2').
  rewrite Hl1, Hl2, Hc1, Hc2, Hlat, Hlon, Hconf, Hact. reflexivity.
Qed.

(** X6.  The fixed seed makes every call reproduce the same detections:
    for any two argument pairs and any two worlds (generator states and
    clocks), both calls raise the same exception, or both return maps
    that agree in everything except the detection times in the popups,
    and both leave the generator in the same state. *)
Theorem create_detection_results_map_reproducible {E : Environment}
    detection_data1 config1 detection_data2 config2 w1 w2 :
  outcome_rel
    (fun m1 w1' m2 w2' =>
       map_location m1 = map_location m2 /\
       zoom_start m1 = zoom_start m2 /\
       map_tiles m1 = map_tiles m2 /\
       map untimed (children m1) = map untimed (children m2) /\
       fst w1' = fst w2')
    (create_detection_results_map detection_data1 config1 w1)
    (create_detection_results_map detection_data2 config2 w2).
Proof.
  rewrite !create_detection_results_map_eq.
  unfold np_random_randint, bind at 1 3, draw. simpl.
  destruct (randint 5 15 (seed 42)) as [e | [n s1]]; [reflexivity|].
  pose proof (generate_clock (center_lat, center_lon) n (0.3, 0.95)
                (0.02, 0.03) (s1, snd w1) (s1, snd w2) eq_refl) as H.
  unfold bind, outcome_rel in *.
  destruct (generate _ n _ _ (s1, snd w1)) as [e1 | [points1 v1]] eqn:H1,
           (generate _ n _ _ (s1, snd w2)) as [e2 | [points2 v2]] eqn:H2;
    try contradiction.
  - exact H.
  - destruct H as [Hobs Hrng]. simpl. repeat split; try exact Hrng.
    rewrite !map_app. simpl. f_equal. f_equal. f_equal.
    apply untimed_markers; [exact Hobs | |].
    + eapply generate_alert_levels. exact H1.
    + eapply generate_alert_levels. exact H2.
Qed.

(** ** Time stamps *)

Lemma generated_readings {E : Environment}
    center confidenceRange jitterStdDev n w points w' :
  generated center confidenceRange jitterStdDev n w points w' ->
  readings n (snd w) = (map detected_at points, snd w').
Proof.
  intros H. induction H as [w | n w p w1 points w2 Hp _ IH].
  - reflexivity.
  - apply detection_point_inv in Hp
      as (dlat & dlon & c & act & t & _ & Hnow & ->).
    simpl. rewrite Hnow, IH. reflexivity.
Qed.

(** X7.  The loop reads the clock once per point and nowhere else: the
    detection times of the returned points are the first [count] readings
    of the clock, in order, and the clock is left as those readings leave
    it. *)
Theorem generate_time_stamps {E : Environment}
    center count confidenceRange jitterStdDev w points w' :
  generate center count confidenceRange jitterStdDev w =
    Returned (points, w') ->
  readings (Z.to_nat count) (snd w) = (map detected_at points, snd w').
Proof.
  intros H. apply generate_generated in H.
  eapply generated_readings. exact H.
Qed.

Lemma generate_time_stamps_witness :
  readings (E := Lcg.env) 10 1000%Z =
  (map detected_at sample_points, snd sample_final) /\
  map detected_at sample_points =
  [1000; 1001; 1002; 1003; 1004; 1005; 1006; 1007; 1008; 1009]%Z.
Proof.
  split; [|reflexivity].
  apply (generate_time_stamps (E := Lcg.env) (40.0155, -105.2705) 10%Z
           (0.3, 0.95) (0.02, 0.03) sample_world sample_points sample_final).
  vm_compute. reflexivity.
Defined.

(** ** Markers and the boundary *)

Lemma roi_coords_latitudes clat clon c :
  In c (roi_coords clat clon) ->
  fst c = fadd clat (b64 0.03) \/ fst c = fsub clat (b64 0.03).
Proof.
  unfold roi_coords. simpl.
  intros [<- | [<- | [<- | [<- | []]]]]; simpl; auto.
Qed.

(** X8.  The loop does not keep its points inside the boundary it draws
    afterwards.  The latitude and longitude of a point are the float
    sums of the centre and the two jitters, as the normal draws return
    them.  A point whose jitters are within the floats 0.03 and 0.04 of
    zero lies within the corners of the boundary; a point of a centre on
    Earth whose latitude jitter exceeds 0.03 by 2^-44 or more, and is at
    most 1, lies north of every corner. *)
Theorem point_within_boundary {E : Environment}
    clat clon confidenceRange jitterStdDev w p w' :
  detection_point (clat, clon) confidenceRange jitterStdDev w =
    Returned (p, w') ->
  exists dlat s1 dlon s2,
    normal 0 (fst jitterStdDev) (fst w) = Returned (dlat, s1) /\
    normal 0 (snd jitterStdDev) s1 = Returned (dlon, s2) /\
    lat p = fadd clat dlat /\ lon p = fadd clon dlon /\
    ((- b64 0.03 <= dlat /\ dlat <= b64 0.03) /\
     (- b64 0.04 <= dlon /\ dlon <= b64 0.04) ->
     within_corners (roi_coords clat clon) (lat p) (lon p)) /\
    (Qabs clat <= 90 -> b64 0.03 + pow2 (-44) <= dlat -> dlat <= 1 ->
     (forall c, In c (roi_coords clat clon) -> fst c < lat p) /\
     ~ within_corners (roi_coords clat clon) (lat p) (lon p)).
Proof.
  intros H.
  apply detection_point_inv in H as (dlat & dlon & c & act & t & Hd & _ & ->).
  destruct Hd as [s1 s2 s3 k H1 H2 _ _ _].
  exists dlat, s1, dlon, s2. cbn [lat lon point_of fst snd].
  split; [exact H1|]. split; [exact H2|]. split; [reflexivity|].
  split; [reflexivity|]. split.
  - intros [[Hla1 Hla2] [Hlo1 Hlo2]]. unfold within_corners, roi_coords.
    repeat split.
    + exists (fsub clat (b64 0.03), fsub clon (b64 0.04)).
      split; [simpl; auto 6|]. cbn [fst snd]. unfold fsub, fadd.
      apply rnd_mono. lra.
    + exists (fadd clat (b64 0.03), fsub clon (b64 0.04)).
      split; [simpl; auto|]. cbn [fst snd]. unfold fadd.
      apply rnd_mono. lra.
    + exists (fadd clat (b64 0.03), fsub clon (b64 0.04)).
      split; [simpl; auto|]. cbn [fst snd]. unfold fsub, fadd.
      apply rnd_mono. lra.
    + exists (fadd clat (b64 0.03), fadd clon (b64 0.04)).
      split; [simpl; auto|]. cbn [fst snd]. unfold fadd.
      apply rnd_mono. lra.
  - intros Hclat Hgap Hone.
    assert (P44 : pow2 (-44) == 1 # 17592186044416) by qclosed.
    assert (P46 : pow2 (-46) == 1 # 70368744177664) by qclosed.
    assert (P8 : pow2 (7 + 1) == 256) by qclosed.
    assert (B3 : 0 <= b64 0.03 /\ b64 0.03 <= 1) by (split; qclosed).
    apply Qabs_Qle_condition in Hclat.
    assert (Hhi : Qabs (rnd (clat + dlat) - (clat + dlat)) <= pow2 (-46)).
    { apply (rnd_error (clat + dlat) 7); [|lia].
      apply Qabs_Qlt_condition. split; lra. }
    assert (Hlo : Qabs (rnd (clat + b64 0.03) - (clat + b64 0.03))
                  <= pow2 (-46)).
    { apply (rnd_error (clat + b64 0.03) 7); [|lia].
      apply Qabs_Qlt_condition. split; lra. }
    apply Qabs_Qle_condition in Hhi, Hlo.
    assert (Hnorth : fadd clat (b64 0.03) < fadd clat dlat)
      by (unfold fadd; lra).
    assert (Hsouth : fsub clat (b64 0.03) <= fadd clat (b64 0.03))
      by (apply rnd_mono; lra).
    assert (Hall : forall c0, In c0 (roi_coords clat clon) ->
                   fst c0 < fadd clat dlat).
    { intros c0 Hin.
      destruct (roi_coords_latitudes clat clon c0 Hin) as [-> | ->]; lra. }
    split; [exact Hall|].
    intros (_ & (c0 & Hin & Hle) & _).
    specialize (Hall c0 Hin). lra.
Qed.

Lemma point_within_boundary_witness :
  detection_point (E := Lcg.env) (center_lat, center_lon) (0.3, 0.95)
    (0.02, 0.03) far_world = Returned (far_point, far_final) /\
  ~ within_corners (roi_coords center_lat center_lon)
      (lat far_point) (lon far_point).
Proof.
  split; [vm_compute; reflexivity|].
  destruct (point_within_boundary (E := Lcg.env) center_lat center_lon
              (0.3, 0.95) (0.02, 0.03) far_world far_point far_final)
    as (dlat & s1 & dlon & s2 & H1 & _ & _ & _ & _ & Hout).
  - vm_compute. reflexivity.
  - simpl in H1. unfold Lcg.lcg_normal in H1. simpl in H1.
    injection H1 as <- _.
    apply Hout; qclosed.
Defined.

Lemma rnd_small_integers :
  rnd 6 = 6 /\ rnd 8 = 8 /\ rnd 14 = 14 /\ rnd 16 = 16.
Proof. vm_compute. repeat split. Qed.

(** X9.  The tier bounds the size of a marker as line 176 computes it:
    the radius of a HIGH confidence is at least 16, that of a MEDIUM one
    is from 14 to 16, that of a LOW one is at most 14; so a radius above
    16 tells a HIGH marker, one below 14 a LOW marker, and one strictly
    between 14 and 16 a MEDIUM marker. *)
Theorem radius_tiers (c : Q) :
  match classifyAlertLevel c with
  | HIGH => 16 <= radius_b64 c
  | MEDIUM => 14 <= radius_b64 c /\ radius_b64 c <= 16
  | LOW => radius_b64 c <= 14
  end /\
  (16 < radius_b64 c -> classifyAlertLevel c = HIGH) /\
  (radius_b64 c < 14 -> classifyAlertLevel c = LOW) /\
  (14 < radius_b64 c -> radius_b64 c < 16 -> classifyAlertLevel c = MEDIUM).
Proof.
  destruct rnd_small_integers as (R6 & R8 & R14 & R16).
  assert (Hup : forall b s, c * 10 <= b -> rnd b = b -> rnd (8 + b) = s ->
                radius_b64 c <= s).
  { intros b s Hb Eb Es. unfold radius_b64, fadd, fmul.
    rewrite <- Es. apply rnd_mono.
    pose proof (rnd_mono _ _ Hb) as Hm. rewrite Eb in Hm. lra. }
  assert (Hdown : forall b s, b <= c * 10 -> rnd b = b -> rnd (8 + b) = s ->
                  s <= radius_b64 c).
  { intros b s Hb Eb Es. unfold radius_b64, fadd, fmul.
    rewrite <- Es. apply rnd_mono.
    pose proof (rnd_mono _ _ Hb) as Hm. rewrite Eb in Hm. lra. }
  assert (S14 : rnd (8 + 6) = 14) by (vm_compute; reflexivity).
  assert (S16 : rnd (8 + 8) = 16) by (vm_compute; reflexivity).
  pose proof (classify_inv c) as Hinv.
  assert (Htier : match classifyAlertLevel c with
                  | HIGH => 16 <= radius_b64 c
                  | MEDIUM => 14 <= radius_b64 c /\ radius_b64 c <= 16
                  | LOW => radius_b64 c <= 14
                  end).
  { destruct (classifyAlertLevel c).
    - apply (Hdown 8 16); [lra | exact R8 | exact S16].
    - destruct Hinv as [H6 H8]. split.
      + apply (Hdown 6 14); [lra | exact R6 | exact S14].
      + apply (Hup 8 16); [lra | exact R8 | exact S16].
    - apply (Hup 6 14); [lra | exact R6 | exact S14]. }
  split; [exact Htier|].
  destruct (classifyAlertLevel c);
    repeat split; intros; try reflexivity; exfalso;
    repeat match goal with H : _ /\ _ |- _ => destruct H end; lra.
Qed.

Lemma radius_tiers_witness :
  classifyAlertLevel 0.9 = HIGH /\ classifyAlertLevel 0.5 = LOW.
Proof.
  split.
  - apply (radius_tiers 0.9). qclosed.
  - apply (radius_tiers 0.5). qclosed.
Defined.

(** ** Composition of runs *)

(** X10.  Running the loop for [a + b] iterations is running it for [a]
    iterations and then for [b] more from the world the first run left:
    the points are concatenated in that order, and the whole raises what
    the first failing part raises. *)
Theorem generate_add {E : Environment}
    center confidenceRange jitterStdDev a b w :
  (0 <= a)%Z -> (0 <= b)%Z ->
  generate center (a + b) confidenceRange jitterStdDev w =
  bind (generate center a confidenceRange jitterStdDev)
    (fun points1 =>
       bind (generate center b confidenceRange jitterStdDev)
            (fun points2 => ret (points1 ++ points2))) w.
Proof.
  intros Ha Hb. rewrite !generate_unfold.
  rewrite Z2Nat.inj_add by assumption. rewrite for_range_add.
  unfold bind at 1 2.
  destruct (for_range (Z.to_nat a) _ [] w) as [e | [points1 w1]];
    [reflexivity|].
  rewrite collect_from. reflexivity.
Qed.

Lemma generate_add_witness :
  generate (E := Lcg.env) (40.0155, -105.2705) (4 + 6) (0.3, 0.95)
    (0.02, 0.03) sample_world =
  bind (generate (E := Lcg.env) (40.0155, -105.2705) 4 (0.3, 0.95)
          (0.02, 0.03))
    (fun points1 =>
       bind (generate (E := Lcg.env) (40.0155, -105.2705) 6 (0.3, 0.95)
               (0.02, 0.03))
            (fun points2 => ret (points1 ++ points2))) sample_world.
Proof. apply generate_add; lia. Defined.

